(** * MODAX field layer (ESP32): the dual-rate safety / telemetry loop

    A shallow embedding of [esp32-field-layer/src/main.cpp]: the cooperative
    [loop()], the safety evaluator [checkSafety()], the telemetry sampler
    [readSensors()], the two publishers and the two acquisition functions.

    - [unsigned long] is 32 bits wide on the ESP32: values are [Z] and every
      unsigned subtraction is reduced modulo [2^32] ([usub]).
    - [float] is IEEE binary32 and [double] binary64, both carried by the
      Standard Library's [spec_float] with the precision given at each
      operation; C's promotions and narrowings are written out.
    - Hardware and library calls (GPIO, ADC, clock, IMU, MQTT, serial) are
      answered by a [Board] record and logged, in call order, as [Event]s. *)

From Stdlib Require Import ZArith List Bool Lia String Ascii.
From Stdlib Require Import SpecFloat DecimalString DecimalFacts.
Import ListNotations.
Open Scope Z_scope.

(** ** Machine arithmetic *)

Module Word.

(** Width of [unsigned long] on the target. *)
Definition width : Z := 32.
Definition modulus : Z := 2 ^ width.

Definition wrap (z : Z) : Z := z mod modulus.

(** [a - b] on [unsigned long]. *)
Definition usub (a b : Z) : Z := wrap (a - b).

Definition in_range (z : Z) : Prop := 0 <= z < modulus.

End Word.

(** ** Floating point: binary32 and binary64 over [spec_float] *)

Module Fp.

Definition float := spec_float.    (* C [float]  *)
Definition double := spec_float.   (* C [double] *)

Definition prec32 : Z := 24.
Definition emax32 : Z := 128.
Definition prec64 : Z := 53.
Definition emax64 : Z := 1024.

(** Integer to [double] conversion. *)
Definition d_of_Z (z : Z) : double := binary_normalize prec64 emax64 z 0 false.

Definition dmul : double -> double -> double := SFmul prec64 emax64.
Definition ddiv : double -> double -> double := SFdiv prec64 emax64.
Definition dsub : double -> double -> double := SFsub prec64 emax64.
Definition dadd : double -> double -> double := SFadd prec64 emax64.

Definition fmul : float -> float -> float := SFmul prec32 emax32.
Definition fadd : float -> float -> float := SFadd prec32 emax32.
Definition fsqrt : float -> float := SFsqrt prec32 emax32.

(** A decimal literal [n / 10^k] of type [double]: both operands are exact
    in binary64, so the correctly rounded quotient is the literal's value. *)
Definition dlit (n : Z) (k : Z) : double := ddiv (d_of_Z n) (d_of_Z (10 ^ k)).

(** Narrowing [double] to [float] (round to nearest, ties to even). *)
Definition to_float (d : double) : float :=
  match d with
  | S754_finite s m e => binary_round prec32 emax32 s m e
  | _ => d
  end.

(** Promotion of [float] to [double] (exact). *)
Definition to_double (f : float) : double :=
  match f with
  | S754_finite s m e => binary_round prec64 emax64 s m e
  | _ => f
  end.

(** Integer to [float] conversion (the [= 0] initialisers). *)
Definition f_of_Z (z : Z) : float := binary_normalize prec32 emax32 z 0 false.

(** [f > d] and [f < d] with a [float] left operand and a [double] right
    operand: the left operand is promoted. *)
Definition gt_fd (f : float) (d : double) : bool := SFltb d (to_double f).
Definition lt_fd (f : float) (d : double) : bool := SFltb (to_double f) d.
Definition le_fd (f : float) (d : double) : bool := SFleb (to_double f) d.

(** Modelled from the spec: [abs] comes from the Arduino core headers,
    which are not part of the sources; the spec gives the result of
    [readCurrent] as "the absolute value (direction is not
    distinguished)". *)
Definition abs (f : float) : float := SFabs f.

End Fp.

(** ** Text: the part of [snprintf] the two publishers use *)

Module Text.
Import Fp.
Open Scope string_scope.

(** The double-quote character (escaped in the C literals). *)
Definition dq : string := String (ascii_of_nat 34) EmptyString.

(** A C string literal's quoted JSON key or value. *)
Definition quoted (s : string) : string := dq ++ s ++ dq.

(** Decimal digits of a non-negative integer ([%lu]). *)
Definition dec (z : Z) : string := NilZero.string_of_uint (N.to_uint (Z.to_N z)).

(** Decimal digits of a signed integer ([Serial.print(int)]). *)
Definition dec_int (z : Z) : string := NilZero.string_of_int (Z.to_int z).

Definition two_digits (z : Z) : string :=
  (if (z <? 10)%Z then "0" else EmptyString) ++ dec z.

(** Hundredths of [m * 2^e], rounded to nearest with ties to even. *)
Definition hundredths (m : positive) (e : Z) : Z :=
  match e with
  | Zneg p =>
      let num := Zpos m * 100 in
      let den := 2 ^ Zpos p in
      let q := num / den in
      let r := num mod den in
      match (2 * r ?= den) with
      | Lt => q
      | Gt => q + 1
      | Eq => if Z.even q then q else q + 1
      end
  | _ => Zpos m * 100 * 2 ^ e
  end.

(** [%.2f]. *)
Definition fixed2 (d : double) : string :=
  match d with
  | S754_nan => "nan"
  | S754_infinity s => (if s then "-" else EmptyString) ++ "inf"
  | S754_zero s => (if s then "-" else EmptyString) ++ "0.00"
  | S754_finite s m e =>
      let h := hundredths m e in
      (if s then "-" else EmptyString) ++ dec (h / 100) ++ "." ++ two_digits (h mod 100)
  end.

(** Variadic arguments after the default promotions. *)
Inductive Arg : Type :=
| ArgULong (z : Z)
| ArgStr (s : string)
| ArgDouble (d : double).

(** Expansion of a format string over [%lu], [%s], [%.2f]. *)
Fixpoint format (fmt : string) (args : list Arg) : string :=
  match fmt with
  | EmptyString => EmptyString
  | String "%" (String "l" (String "u" rest)) =>
      match args with
      | ArgULong z :: args' => dec z ++ format rest args'
      | _ => format rest args
      end
  | String "%" (String "s" rest) =>
      match args with
      | ArgStr s :: args' => s ++ format rest args'
      | _ => format rest args
      end
  | String "%" (String "." (String "2" (String "f" rest))) =>
      match args with
      | ArgDouble d :: args' => fixed2 d ++ format rest args'
      | _ => format rest args
      end
  | String c rest => String c (format rest args)
  end.

(** [snprintf(buf, size, fmt, ...)]: at most [size - 1] characters are
    stored. *)
Definition snprintf (size : nat) (fmt : string) (args : list Arg) : string :=
  substring 0 (size - 1) (format fmt args).

(** The conditional text of a flag: true or false. *)
Definition bool_text (b : bool) : string := if b then "true" else "false".

End Text.

(** ** Configuration constants (lines 13-30) *)

Open Scope string_scope.
Open Scope Z_scope.
Open Scope list_scope.

Definition mqtt_topic_data : string := "modax/sensor/data".
Definition mqtt_topic_safety : string := "modax/sensor/safety".
Definition device_id : string := "ESP32_FIELD_001".

Definition CURRENT_SENSOR_PIN_1 : Z := 34.
Definition CURRENT_SENSOR_PIN_2 : Z := 35.
Definition TEMP_SENSOR_PIN_1 : Z := 32.
Definition EMERGENCY_STOP_PIN : Z := 25.
Definition DOOR_SENSOR_PIN : Z := 26.

Definition SENSOR_INTERVAL : Z := 100.
Definition SAFETY_INTERVAL : Z := 50.

(** Electrical levels returned by [digitalRead]. *)
Definition HIGH : Z := 1.
Definition LOW : Z := 0.

(** ** Program state *)

Record SafetyState : Type := mkSafetyState {
  emergencyStop : bool;
  doorClosed : bool;
  overloadDetected : bool;
  temperatureOk : bool
}.

(** The globals of the sketch, with the function-local static
    [lastSafetyPublish] of [checkSafety] alongside. *)
Record Globals : Type := mkGlobals {
  lastSensorTime : Z;
  lastSafetyTime : Z;
  safetyState : SafetyState;
  lastSafetyPublish : Z
}.

(** Initialisers of lines 38-49 and 196. *)
Definition boot : Globals :=
  {| lastSensorTime := 0;
     lastSafetyTime := 0;
     safetyState := mkSafetyState false true false true;
     lastSafetyPublish := 0 |}.

Definition with_safetyState (f : SafetyState -> SafetyState) (g : Globals) : Globals :=
  {| lastSensorTime := lastSensorTime g;
     lastSafetyTime := lastSafetyTime g;
     safetyState := f (safetyState g);
     lastSafetyPublish := lastSafetyPublish g |}.

Definition put_emergencyStop (b : bool) (s : SafetyState) : SafetyState :=
  mkSafetyState b (doorClosed s) (overloadDetected s) (temperatureOk s).
Definition put_doorClosed (b : bool) (s : SafetyState) : SafetyState :=
  mkSafetyState (emergencyStop s) b (overloadDetected s) (temperatureOk s).
Definition put_overloadDetected (b : bool) (s : SafetyState) : SafetyState :=
  mkSafetyState (emergencyStop s) (doorClosed s) b (temperatureOk s).
Definition put_temperatureOk (b : bool) (s : SafetyState) : SafetyState :=
  mkSafetyState (emergencyStop s) (doorClosed s) (overloadDetected s) b.

Definition put_lastSensorTime (t : Z) (g : Globals) : Globals :=
  mkGlobals t (lastSafetyTime g) (safetyState g) (lastSafetyPublish g).
Definition put_lastSafetyTime (t : Z) (g : Globals) : Globals :=
  mkGlobals (lastSensorTime g) t (safetyState g) (lastSafetyPublish g).
Definition put_lastSafetyPublish (t : Z) (g : Globals) : Globals :=
  mkGlobals (lastSensorTime g) (lastSafetyTime g) (safetyState g) t.

(** ** The board: what the hardware and the libraries answer *)

(** One entry per call the sketch makes outside itself, in call order. *)
Inductive Event : Type :=
| DigitalRead (pin level : Z)
| AnalogRead (pin code : Z)
| Millis (t : Z)
| MpuGetEvent (ok : bool)
| MqttConnected (up : bool)
| MqttConnect (client : string) (ok : bool)
| MqttState (rc : Z)
| MqttLoop
| MqttPublish (topic payload : string)
| SerialPrint (s : string)
| SerialPrintln (s : string)
| Delay (ms : Z).

(** The places where [millis()] is called inside the two cadence bodies. *)
Inductive ClockSite : Type :=
| AtHeartbeatTest     (* line 198 *)
| AtSafetyPayload     (* line 239 *)
| AtSafetyStamp       (* line 200 *)
| AtSensorPayload.    (* line 223 *)

(** What one run of a cadence body sees: each pin is sampled at most once per
    run, and the clock (true milliseconds since boot, before it wraps) may
    advance between the calls. *)
Record Board : Type := mkBoard {
  pin_level : Z -> Z;
  adc_code : Z -> Z;
  imu : option (Fp.float * Fp.float * Fp.float);
  clock : ClockSite -> Z
}.

(** ** Computations: state passing with a log of outside calls *)

Definition M (A : Type) : Type := Globals -> A * Globals * list Event.

Definition ret {A} (a : A) : M A := fun g => (a, g, []).

Definition bind {A B} (m : M A) (k : A -> M B) : M B :=
  fun g =>
    let '(a, g1, tr1) := m g in
    let '(b, g2, tr2) := k a g1 in
    (b, g2, tr1 ++ tr2).

Declare Scope prog_scope.
Delimit Scope prog_scope with prog.
Notation "x <- m ;; k" := (bind m (fun x => k))
  (at level 61, m at next level, right associativity) : prog_scope.
Notation "m ;; k" := (bind m (fun _ => k))
  (at level 61, right associativity) : prog_scope.
Open Scope prog_scope.

Definition gets {A} (f : Globals -> A) : M A := fun g => (f g, g, []).
Definition modify (f : Globals -> Globals) : M unit := fun g => (tt, f g, []).
Definition emit (e : Event) : M unit := fun g => (tt, g, [e]).
Definition when (b : bool) (m : M unit) : M unit := if b then m else ret tt.

Definition state_of {A} (r : A * Globals * list Event) : Globals := snd (fst r).
Definition trace_of {A} (r : A * Globals * list Event) : list Event := snd r.
Definition value_of {A} (r : A * Globals * list Event) : A := fst (fst r).

(** Outside calls. *)
Definition digitalRead (hw : Board) (pin : Z) : M Z :=
  let v := pin_level hw pin in emit (DigitalRead pin v) ;; ret v.
Definition analogRead (hw : Board) (pin : Z) : M Z :=
  let v := adc_code hw pin in emit (AnalogRead pin v) ;; ret v.
Definition millis_at (now : Z) : M Z :=
  let t := Word.wrap now in emit (Millis t) ;; ret t.
Definition millis (hw : Board) (site : ClockSite) : M Z := millis_at (clock hw site).
Definition mpu_getEvent (hw : Board) : M (option (Fp.float * Fp.float * Fp.float)) :=
  emit (MpuGetEvent (match imu hw with Some _ => true | None => false end)) ;;
  ret (imu hw).
Definition mqtt_publish (topic payload : string) : M unit := emit (MqttPublish topic payload).
Definition serial_print (s : string) : M unit := emit (SerialPrint s).
Definition serial_println (s : string) : M unit := emit (SerialPrintln s).
Definition delay (ms : Z) : M unit := emit (Delay ms).

(** ** Sensor acquisition (lines 252-268) *)

Import Fp.

(** [rawValue * (3.3 / 4095.0)], stored in a [float]. *)
Definition adc_voltage (rawValue : Z) : float :=
  to_float (dmul (d_of_Z rawValue) (ddiv (dlit 33 1) (dlit 4095 0))).

Definition readCurrent (hw : Board) (pin : Z) : M float :=
  rawValue <- analogRead hw pin ;;
  let voltage := adc_voltage rawValue in
  let current := to_float (ddiv (dsub (to_double voltage) (dlit 165 2)) (dlit 1 1)) in
  ret (abs current).

Definition readTemperature (hw : Board) (pin : Z) : M float :=
  rawValue <- analogRead hw pin ;;
  let voltage := adc_voltage rawValue in
  let resistance :=
    to_float (ddiv (dmul (dlit 10000 0) (to_double voltage))
                   (dsub (dlit 33 1) (to_double voltage))) in
  let tempC :=
    to_float (dadd (dlit 25 0)
                   (ddiv (dsub (to_double resistance) (dlit 10000 0)) (dlit 100 0))) in
  ret tempC.

(** The two acquisition functions as [checkSafety] calls them. The body of
    [checkSafety] is written over this record, so that readings can also be
    injected at the two calls, the way a bench test feeds the evaluator. *)
Record Acquisition : Type := mkAcquisition {
  acq_current : Z -> M float;
  acq_temperature : Z -> M float
}.

(** The acquisition of the sketch: the ADC conversions above. *)
Definition adc_acquisition (hw : Board) : Acquisition :=
  {| acq_current := readCurrent hw; acq_temperature := readTemperature hw |}.

(** ** Publishers (lines 211-250) *)

Definition safety_format : string :=
  ("{" ++ Text.quoted "timestamp" ++ ":%lu," ++ Text.quoted "device_id" ++ ":" ++ Text.quoted "%s"
   ++ "," ++ Text.quoted "emergency_stop" ++ ":%s,"
   ++ Text.quoted "door_closed" ++ ":%s," ++ Text.quoted "overload_detected" ++ ":%s,"
   ++ Text.quoted "temperature_ok" ++ ":%s}")%string.

Definition safety_payload (t : Z) (s : SafetyState) : string :=
  Text.snprintf 256 safety_format
    [Text.ArgULong t; Text.ArgStr device_id;
     Text.ArgStr (Text.bool_text (emergencyStop s));
     Text.ArgStr (Text.bool_text (doorClosed s));
     Text.ArgStr (Text.bool_text (overloadDetected s));
     Text.ArgStr (Text.bool_text (temperatureOk s))].

Definition publishSafetyData (hw : Board) : M unit :=
  t <- millis hw AtSafetyPayload ;;
  s <- gets safetyState ;;
  let payload := safety_payload t s in
  mqtt_publish mqtt_topic_safety payload ;;
  serial_print "Published safety data: " ;;
  serial_println payload.

Definition sensor_format : string :=
  ("{" ++ Text.quoted "timestamp" ++ ":%lu," ++ Text.quoted "device_id" ++ ":" ++ Text.quoted "%s"
   ++ "," ++ Text.quoted "motor_currents" ++ ":[%.2f,%.2f],"
   ++ Text.quoted "vibration" ++ ":{" ++ Text.quoted "x" ++ ":%.2f," ++ Text.quoted "y" ++ ":%.2f,"
   ++ Text.quoted "z" ++ ":%.2f," ++ Text.quoted "magnitude" ++ ":%.2f},"
   ++ Text.quoted "temperatures" ++ ":[%.2f]}")%string.

Definition sensor_payload (t : Z)
    (current1 current2 vibX vibY vibZ vibMagnitude temp1 : float) : string :=
  Text.snprintf 512 sensor_format
    [Text.ArgULong t; Text.ArgStr device_id;
     Text.ArgDouble (to_double current1); Text.ArgDouble (to_double current2);
     Text.ArgDouble (to_double vibX); Text.ArgDouble (to_double vibY);
     Text.ArgDouble (to_double vibZ); Text.ArgDouble (to_double vibMagnitude);
     Text.ArgDouble (to_double temp1)].

(** [sqrt(vibX*vibX + vibY*vibY + vibZ*vibZ)], each operation in binary32. *)
Definition magnitude (vibX vibY vibZ : float) : float :=
  fsqrt (fadd (fadd (fmul vibX vibX) (fmul vibY vibY)) (fmul vibZ vibZ)).

Definition publishSensorData (hw : Board)
    (current1 current2 temp1 vibX vibY vibZ : float) : M unit :=
  let vibMagnitude := magnitude vibX vibY vibZ in
  t <- millis hw AtSensorPayload ;;
  let payload := sensor_payload t current1 current2 vibX vibY vibZ vibMagnitude temp1 in
  mqtt_publish mqtt_topic_data payload ;;
  serial_print "Published sensor data: " ;;
  serial_println payload.

(** ** Telemetry sampling (lines 154-174) *)

Definition readSensors (hw : Board) : M unit :=
  current1 <- readCurrent hw CURRENT_SENSOR_PIN_1 ;;
  current2 <- readCurrent hw CURRENT_SENSOR_PIN_2 ;;
  temp1 <- readTemperature hw TEMP_SENSOR_PIN_1 ;;
  let zero := f_of_Z 0 in
  got <- mpu_getEvent hw ;;
  let '(vibX, vibY, vibZ) :=
    match got with
    | Some accel => accel
    | None => (zero, zero, zero)
    end in
  publishSensorData hw current1 current2 temp1 vibX vibY vibZ.

(** ** Safety evaluation (lines 176-209) *)

(** [!v] on an [int]. *)
Definition lnot (v : Z) : bool := v =? 0.

(** The condition of the local safety action (lines 204-205). *)
Definition unsafe (s : SafetyState) : bool :=
  emergencyStop s || negb (doorClosed s) || overloadDetected s || negb (temperatureOk s).

(** The body of [checkSafety], line by line, over the acquisition [acq]. *)
Definition checkSafety_via (acq : Acquisition) (hw : Board) : M unit :=
  prevEmergencyStop <- gets (fun g => emergencyStop (safetyState g)) ;;
  v <- digitalRead hw EMERGENCY_STOP_PIN ;;
  modify (with_safetyState (put_emergencyStop (lnot v))) ;;
  v <- digitalRead hw DOOR_SENSOR_PIN ;;
  modify (with_safetyState (put_doorClosed (lnot v))) ;;
  current1 <- acq_current acq CURRENT_SENSOR_PIN_1 ;;
  current2 <- acq_current acq CURRENT_SENSOR_PIN_2 ;;
  modify (with_safetyState
            (put_overloadDetected (gt_fd current1 (dlit 100 1) || gt_fd current2 (dlit 100 1)))) ;;
  temp1 <- acq_temperature acq TEMP_SENSOR_PIN_1 ;;
  modify (with_safetyState (put_temperatureOk (lt_fd temp1 (dlit 850 1)))) ;;
  es <- gets (fun g => emergencyStop (safetyState g)) ;;
  due <- (if negb (Bool.eqb prevEmergencyStop es) then ret true
          else (t <- millis hw AtHeartbeatTest ;;
                last <- gets lastSafetyPublish ;;
                ret (1000 <? Word.usub t last))) ;;
  when due
    (publishSafetyData hw ;;
     t <- millis hw AtSafetyStamp ;;
     modify (put_lastSafetyPublish t)) ;;
  s <- gets safetyState ;;
  when (unsafe s) (serial_println "SAFETY TRIGGERED!").

(** [checkSafety()] itself: the body over [readCurrent] and
    [readTemperature]. *)
Definition checkSafety (hw : Board) : M unit :=
  checkSafety_via (adc_acquisition hw) hw.

(** ** Transport liveness (lines 139-152) *)

(** Outcome of one [mqttClient.connect(device_id)]: accepted, or refused with
    the state code that [mqttClient.state()] then reports. *)
Inductive Attempt : Type :=
| Accepted
| Refused (rc : Z).

(** The [while (!mqttClient.connected())] loop over the attempts the broker
    answers before [connected()] first holds. *)
Fixpoint reconnectMQTT (attempts : list Attempt) : M unit :=
  match attempts with
  | [] => emit (MqttConnected true)
  | a :: rest =>
      emit (MqttConnected false) ;;
      serial_print "Attempting MQTT connection..." ;;
      match a with
      | Accepted =>
          emit (MqttConnect device_id true) ;;
          serial_println "connected"
      | Refused rc =>
          emit (MqttConnect device_id false) ;;
          serial_print "failed, rc=" ;;
          emit (MqttState rc) ;;
          serial_print (Text.dec_int rc) ;;
          serial_println " retrying in 5 seconds" ;;
          delay 5000
      end ;;
      reconnectMQTT rest
  end.

(** State of the broker link when an iteration starts. *)
Inductive Link : Type :=
| LinkUp                                (* [connected()] holds at line 97 *)
| LinkDown (attempts : list Attempt)    (* reconnect returns after these *)
| LinkLost.                             (* the broker never answers *)

(** ** The scheduler (lines 95-115) *)

(** What one iteration of [loop()] meets. *)
Record Iteration : Type := mkIteration {
  link : Link;
  now : Z;                 (* the clock when line 102 reads it *)
  safety_hw : Board;       (* seen by [checkSafety], if it runs *)
  sensor_hw : Board        (* seen by [readSensors], if it runs *)
}.

Definition safety_due (currentTime : Z) (g : Globals) : bool :=
  SAFETY_INTERVAL <=? Word.usub currentTime (lastSafetyTime g).

Definition sensor_due (currentTime : Z) (g : Globals) : bool :=
  SENSOR_INTERVAL <=? Word.usub currentTime (lastSensorTime g).

(** Lines 96-100. *)
Definition maintain (attempts : option (list Attempt)) : M unit :=
  match attempts with
  | None => emit (MqttConnected true)
  | Some l => emit (MqttConnected false) ;; reconnectMQTT l
  end ;;
  emit MqttLoop.

(** Lines 102-114. *)
Definition dispatch (it : Iteration) : M unit :=
  currentTime <- millis_at (now it) ;;
  due <- gets (safety_due currentTime) ;;
  when due
    (modify (put_lastSafetyTime currentTime) ;;
     checkSafety (safety_hw it)) ;;
  due <- gets (sensor_due currentTime) ;;
  when due
    (modify (put_lastSensorTime currentTime) ;;
     readSensors (sensor_hw it)).

(** One iteration; [None] when the reconnect loop never returns. *)
Definition loop (it : Iteration) (g : Globals) : option (unit * Globals * list Event) :=
  match link it with
  | LinkUp => Some ((maintain None ;; dispatch it) g)
  | LinkDown l => Some ((maintain (Some l) ;; dispatch it) g)
  | LinkLost => None
  end.

(** Successive iterations, keeping each iteration's log apart. *)
Fixpoint run (its : list Iteration) (g : Globals) : option (Globals * list (list Event)) :=
  match its with
  | [] => Some (g, [])
  | it :: rest =>
      match loop it g with
      | None => None
      | Some (_, g1, tr) =>
          match run rest g1 with
          | None => None
          | Some (g2, trs) => Some (g2, tr :: trs)
          end
      end
  end.

(** ** Reading logs *)

Definition is_safety_publish (e : Event) : bool :=
  match e with
  | MqttPublish topic _ => String.eqb topic mqtt_topic_safety
  | _ => false
  end.

Definition safety_publishes (tr : list Event) : list Event := filter is_safety_publish tr.

Definition is_data_publish (e : Event) : bool :=
  match e with
  | MqttPublish topic _ => String.eqb topic mqtt_topic_data
  | _ => false
  end.

Definition data_publishes (tr : list Event) : list Event := filter is_data_publish tr.

(** The local safety action of line 207. *)
Definition local_action : Event := SerialPrintln "SAFETY TRIGGERED!".

(** * Closed forms of the cadence bodies and observations on logs *)

(** ** One safety cycle *)

(** A computation that answers [a] and leaves the globals alone. *)
Definition reads {A} (m : M A) (a : A) : Prop :=
  forall g, value_of (m g) = a /\ state_of (m g) = g.

(** The readings the sketch's own acquisition takes from a board. *)
Definition current_of (hw : Board) (pin : Z) : float := value_of (readCurrent hw pin boot).
Definition temperature_of (hw : Board) (pin : Z) : float := value_of (readTemperature hw pin boot).

(** The four fields as lines 183-193 compute them from given readings. *)
Definition fields_of (hw : Board) (current1 current2 temp1 : float) : SafetyState :=
  {| emergencyStop := lnot (pin_level hw EMERGENCY_STOP_PIN);
     doorClosed := lnot (pin_level hw DOOR_SENSOR_PIN);
     overloadDetected := gt_fd current1 (dlit 100 1) || gt_fd current2 (dlit 100 1);
     temperatureOk := lt_fd temp1 (dlit 850 1) |}.

Definition evaluated (hw : Board) : SafetyState :=
  fields_of hw (current_of hw CURRENT_SENSOR_PIN_1) (current_of hw CURRENT_SENSOR_PIN_2)
            (temperature_of hw TEMP_SENSOR_PIN_1).

(** The two disjuncts of the condition at lines 197-198. *)
Definition edge (hw : Board) (g : Globals) : bool :=
  negb (Bool.eqb (emergencyStop (safetyState g)) (lnot (pin_level hw EMERGENCY_STOP_PIN))).

Definition heartbeat (hw : Board) (g : Globals) : bool :=
  1000 <? Word.usub (Word.wrap (clock hw AtHeartbeatTest)) (lastSafetyPublish g).

Definition publish_due (hw : Board) (g : Globals) : bool := edge hw g || heartbeat hw g.

Definition safety_message (hw : Board) : Event :=
  MqttPublish mqtt_topic_safety
    (safety_payload (Word.wrap (clock hw AtSafetyPayload)) (evaluated hw)).

Definition after_safety (hw : Board) (g : Globals) : Globals :=
  {| lastSensorTime := lastSensorTime g;
     lastSafetyTime := lastSafetyTime g;
     safetyState := evaluated hw;
     lastSafetyPublish :=
       if publish_due hw g then Word.wrap (clock hw AtSafetyStamp) else lastSafetyPublish g |}.

Definition safety_log (hw : Board) (g : Globals) : list Event :=
  [DigitalRead EMERGENCY_STOP_PIN (pin_level hw EMERGENCY_STOP_PIN);
   DigitalRead DOOR_SENSOR_PIN (pin_level hw DOOR_SENSOR_PIN);
   AnalogRead CURRENT_SENSOR_PIN_1 (adc_code hw CURRENT_SENSOR_PIN_1);
   AnalogRead CURRENT_SENSOR_PIN_2 (adc_code hw CURRENT_SENSOR_PIN_2);
   AnalogRead TEMP_SENSOR_PIN_1 (adc_code hw TEMP_SENSOR_PIN_1)]
  ++ (if edge hw g then [] else [Millis (Word.wrap (clock hw AtHeartbeatTest))])
  ++ (if publish_due hw g
      then [Millis (Word.wrap (clock hw AtSafetyPayload));
            safety_message hw;
            SerialPrint "Published safety data: ";
            SerialPrintln (safety_payload (Word.wrap (clock hw AtSafetyPayload)) (evaluated hw));
            Millis (Word.wrap (clock hw AtSafetyStamp))]
      else [])
  ++ (if unsafe (evaluated hw) then [local_action] else []).

(** ** One telemetry cycle *)

(** The [= 0] initialisers of line 164. *)
Definition zero : float := f_of_Z 0.

(** The vibration triple that reaches the publisher. *)
Definition vibration_of (hw : Board) : float * float * float :=
  match imu hw with
  | Some accel => accel
  | None => (zero, zero, zero)
  end.

Definition sensor_message (hw : Board) : Event :=
  let '(vibX, vibY, vibZ) := vibration_of hw in
  MqttPublish mqtt_topic_data
    (sensor_payload (Word.wrap (clock hw AtSensorPayload))
       (current_of hw CURRENT_SENSOR_PIN_1) (current_of hw CURRENT_SENSOR_PIN_2)
       vibX vibY vibZ (magnitude vibX vibY vibZ)
       (temperature_of hw TEMP_SENSOR_PIN_1)).

Definition sensor_log (hw : Board) : list Event :=
  [AnalogRead CURRENT_SENSOR_PIN_1 (adc_code hw CURRENT_SENSOR_PIN_1);
   AnalogRead CURRENT_SENSOR_PIN_2 (adc_code hw CURRENT_SENSOR_PIN_2);
   AnalogRead TEMP_SENSOR_PIN_1 (adc_code hw TEMP_SENSOR_PIN_1);
   MpuGetEvent (match imu hw with Some _ => true | None => false end);
   Millis (Word.wrap (clock hw AtSensorPayload));
   sensor_message hw;
   SerialPrint "Published sensor data: ";
   SerialPrintln (match sensor_message hw with
                  | MqttPublish _ payload => payload
                  | _ => EmptyString
                  end)].

(** The same board with the inertial sensor answering the given triple. *)
Definition with_imu (r : option (float * float * float)) (hw : Board) : Board :=
  {| pin_level := pin_level hw; adc_code := adc_code hw; imu := r; clock := clock hw |}.

(** ** One iteration of the scheduler *)

(** Events of the two cadence bodies, as opposed to those of the transport
    upkeep and of the scheduler's own clock read. *)
Definition is_cadence_event (e : Event) : bool :=
  match e with
  | DigitalRead _ _ | AnalogRead _ _ | MpuGetEvent _ | MqttPublish _ _ => true
  | _ => false
  end.

Definition upkeep_only (tr : list Event) : Prop :=
  Forall (fun e => is_cadence_event e = false) tr.

(** The log of lines 96-100. *)
Definition link_log (attempts : option (list Attempt)) : list Event :=
  trace_of (maintain attempts boot).

(** State and log of lines 102-114. *)
Definition after_safety_tick (it : Iteration) (g : Globals) : Globals :=
  let t := Word.wrap (now it) in
  if safety_due t g then after_safety (safety_hw it) (put_lastSafetyTime t g) else g.

Definition safety_part (it : Iteration) (g : Globals) : list Event :=
  let t := Word.wrap (now it) in
  if safety_due t g then safety_log (safety_hw it) (put_lastSafetyTime t g) else [].

Definition sensor_part (it : Iteration) (g : Globals) : list Event :=
  if sensor_due (Word.wrap (now it)) g then sensor_log (sensor_hw it) else [].

Definition after_dispatch (it : Iteration) (g : Globals) : Globals :=
  let t := Word.wrap (now it) in
  let g1 := after_safety_tick it g in
  if sensor_due t g then put_lastSensorTime t g1 else g1.

Definition attempts_of (l : Link) : option (list Attempt) :=
  match l with
  | LinkDown attempts => Some attempts
  | _ => None
  end.

(** Which cadence bodies ran, read off an iteration's log: only
    [checkSafety] samples the digital inputs, only [readSensors] queries the
    inertial sensor. *)
Definition is_digital_read (e : Event) : bool :=
  match e with DigitalRead _ _ => true | _ => false end.
Definition is_imu_query (e : Event) : bool :=
  match e with MpuGetEvent _ => true | _ => false end.

Definition safety_ran (tr : list Event) : bool := existsb is_digital_read tr.
Definition sensor_ran (tr : list Event) : bool := existsb is_imu_query tr.

(** ** Benches: concrete boards, injected readings, a quiet execution *)

(** E-stop released (high), door switch closed to ground (low), both current
    channels near 0 A (mid-scale code), about 50 degrees on the thermistor. *)
Definition nominal_board (t : Z) : Board :=
  {| pin_level := fun pin => if pin =? EMERGENCY_STOP_PIN then HIGH else LOW;
     adc_code := fun pin => if pin =? TEMP_SENSOR_PIN_1 then 2275 else 2048;
     imu := None;
     clock := fun _ => t |}.

(** Both digital inputs floating on their pull-ups. *)
Definition floating_board (t : Z) : Board :=
  {| pin_level := fun _ => HIGH;
     adc_code := adc_code (nominal_board t);
     imu := None;
     clock := fun _ => t |}.

(** An acquisition that answers the given readings. *)
Definition injected (current1 current2 temp1 : float) : Acquisition :=
  {| acq_current := fun pin => ret (if pin =? CURRENT_SENSOR_PIN_1 then current1 else current2);
     acq_temperature := fun _ => ret temp1 |}.

(** The state a cycle with channel 1 at ADC code 3537 (about 12 A) leaves. *)
Definition overloaded : Globals :=
  state_of (checkSafety
              {| pin_level := pin_level (nominal_board 50);
                 adc_code := fun pin => if pin =? CURRENT_SENSOR_PIN_1 then 3537
                                        else adc_code (nominal_board 50) pin;
                 imu := None;
                 clock := fun _ => 50 |} boot).

(** An execution with nothing going on: the link is up, one iteration every
    50 ms from boot, the nominal board throughout (e-stop never asserted). *)
Definition quiet_iteration (t : Z) : Iteration :=
  {| link := LinkUp; now := t; safety_hw := nominal_board t; sensor_hw := nominal_board t |}.



(** The message of the first heartbeat of the quiet execution. *)
Definition first_heartbeat : string :=
  safety_payload 1050 (mkSafetyState false true false true).

(** Door open, channel 1 overloaded and the thermistor far over 85
    degrees. *)
Definition faulted_board (t : Z) : Board :=
  {| pin_level := fun _ => HIGH;
     adc_code := fun pin => if pin =? CURRENT_SENSOR_PIN_1 then 3537
                            else if pin =? TEMP_SENSOR_PIN_1 then 3000 else 2048;
     imu := None;
     clock := fun _ => t |}.

(** * Start-up (lines 63-93 and 117-137) *)

Definition ssid : string := "YOUR_WIFI_SSID".
Definition password : string := "YOUR_WIFI_PASSWORD".
Definition mqtt_server : string := "192.168.1.100".
Definition mqtt_port : Z := 1883.

(** The newline that opens two of the start-up messages. *)
Definition nl : string := String (ascii_of_nat 10) EmptyString.

Inductive PinModeKind : Type := INPUT | INPUT_PULLUP.

Inductive MpuSetting : Type :=
| AccelerometerRange8G
| GyroRange500Deg
| FilterBandwidth21Hz.

(** One entry per call [setup()] makes outside the sketch, in call order. *)
Inductive BootEvent : Type :=
| SerialBegin (baud : Z)
| BootPrint (s : string)
| BootPrintln (s : string)
| WireBegin
| MpuBegin (found : bool)
| MpuConfigure (setting : MpuSetting)
| PinMode (pin : Z) (mode : PinModeKind)
| BootDelay (ms : Z)
| WifiBegin (network key : string)
| WifiStatus (connected : bool)
| WifiLocalIP (address : string)
| MqttSetServer (host : string) (port : Z)
| MqttSetBufferSize (size : Z).

(** What start-up meets: whether the MPU6050 answers, how many times
    [WiFi.status()] reports something other than connected before it reports
    connected ([None]: it never does), and the address then obtained. *)
Record BootBoard : Type := mkBootBoard {
  mpu_found : bool;
  wifi_polls : option nat;
  local_ip : string
}.

(** The [while (WiFi.status() != WL_CONNECTED)] loop of lines 124-127. *)
Fixpoint wifi_wait (polls : nat) : list BootEvent :=
  match polls with
  | O => [WifiStatus true]
  | S rest => WifiStatus false :: BootDelay 500 :: BootPrint "." :: wifi_wait rest
  end.

Definition setupWiFi (polls : nat) (address : string) : list BootEvent :=
  [BootDelay 10; BootPrint "Connecting to WiFi: "; BootPrintln ssid; WifiBegin ssid password]
  ++ wifi_wait polls
  ++ [BootPrintln (nl ++ "WiFi connected")%string; BootPrint "IP address: ";
      WifiLocalIP address; BootPrintln address].

Definition setupMQTT : list BootEvent :=
  [MqttSetServer mqtt_server mqtt_port; MqttSetBufferSize 512].

(** [setup()]; [None] when the WiFi loop never returns. *)
Definition setup (b : BootBoard) : option (list BootEvent) :=
  match wifi_polls b with
  | None => None
  | Some polls =>
      Some ([SerialBegin 115200; BootPrintln (nl ++ "=== MODAX Field Layer ESP32 ===")%string;
             WireBegin; MpuBegin (mpu_found b)]
            ++ (if mpu_found b
                then [BootPrintln "MPU6050 initialized";
                      MpuConfigure AccelerometerRange8G;
                      MpuConfigure GyroRange500Deg;
                      MpuConfigure FilterBandwidth21Hz]
                else [BootPrintln "Failed to find MPU6050 chip"])
            ++ [PinMode EMERGENCY_STOP_PIN INPUT_PULLUP;
                PinMode DOOR_SENSOR_PIN INPUT_PULLUP;
                PinMode CURRENT_SENSOR_PIN_1 INPUT;
                PinMode CURRENT_SENSOR_PIN_2 INPUT;
                PinMode TEMP_SENSOR_PIN_1 INPUT]
            ++ setupWiFi polls (local_ip b)
            ++ setupMQTT
            ++ [BootPrintln "Setup complete"])
  end.

(** ** Observations on the start-up log *)

Definition boot_delay_total (tr : list BootEvent) : Z :=
  fold_right (fun e acc => match e with BootDelay ms => ms + acc | _ => acc end) 0 tr.

Definition is_mpu_line (e : BootEvent) : bool :=
  match e with
  | MpuBegin _ | MpuConfigure _ => true
  | BootPrintln s => String.eqb s "MPU6050 initialized" || String.eqb s "Failed to find MPU6050 chip"
  | _ => false
  end.

Definition is_pin_mode (e : BootEvent) : bool :=
  match e with PinMode _ _ => true | _ => false end.

Definition is_wifi_begin (e : BootEvent) : bool :=
  match e with WifiBegin _ _ => true | _ => false end.

Definition is_dot (e : BootEvent) : bool :=
  match e with BootPrint s => String.eqb s "." | _ => false end.

(** ** Further observations on the run-time logs *)

(** The twelve-bit codes [analogRead] returns. *)
Definition adc_codes : list Z := map Z.of_nat (seq 0 4096).

(** The two conversions as functions of the code read. *)
Definition current_of_code (code : Z) : float :=
  current_of (mkBoard (fun _ => LOW) (fun _ => code) None (fun _ => 0)) CURRENT_SENSOR_PIN_1.
Definition temperature_of_code (code : Z) : float :=
  temperature_of (mkBoard (fun _ => LOW) (fun _ => code) None (fun _ => 0)) TEMP_SENSOR_PIN_1.

Definition is_finite (f : spec_float) : bool :=
  match f with
  | S754_finite _ _ _ | S754_zero _ => true
  | _ => false
  end.

(** Everything the conversions are checked for, at one code. *)
Definition conversion_check (code : Z) : bool :=
  let i := current_of_code code in
  let t := temperature_of_code code in
  Bool.eqb (gt_fd i (dlit 100 1)) ((code <=? 806) || (3289 <=? code))
  && Bool.eqb (lt_fd t (dlit 850 1)) (code <=? 2519)
  && is_finite i && SFleb zero i && le_fd i (dlit 165 1)
  && is_finite t && SFleb (to_float (dlit (-75) 0)) t.

(** Milliseconds spent in [delay] calls. *)
Definition delay_total (tr : list Event) : Z :=
  fold_right (fun e acc => match e with Delay ms => ms + acc | _ => acc end) 0 tr.

Definition refusals (attempts : list Attempt) : Z :=
  fold_right (fun a acc => match a with Refused _ => 1 + acc | Accepted => acc end) 0 attempts.

Definition is_connect (e : Event) : bool :=
  match e with MqttConnect _ _ => true | _ => false end.

(** Successive safety cycles on their own: the states they leave and their
    logs. *)
Fixpoint safety_cycles (hws : list Board) (g : Globals) : Globals * list (list Event) :=
  match hws with
  | [] => (g, [])
  | hw :: rest =>
      let r := checkSafety hw g in
      let '(g', logs) := safety_cycles rest (state_of r) in
      (g', trace_of r :: logs)
  end.

(** ** Observations for the further properties *)

(** The message before it is cut to the buffer: the text up to the
    timestamp, its digits, and the rest, which the four flags decide. *)
Definition flags_text (s : SafetyState) : string :=
  ("," ++ Text.quoted "device_id" ++ ":" ++ Text.quoted device_id
   ++ "," ++ Text.quoted "emergency_stop" ++ ":" ++ Text.bool_text (emergencyStop s) ++ ","
   ++ Text.quoted "door_closed" ++ ":" ++ Text.bool_text (doorClosed s) ++ ","
   ++ Text.quoted "overload_detected" ++ ":" ++ Text.bool_text (overloadDetected s) ++ ","
   ++ Text.quoted "temperature_ok" ++ ":" ++ Text.bool_text (temperatureOk s) ++ "}")%string.

(** The e-stop input changing level in every cycle of a sequence. *)
Fixpoint toggling (stored : bool) (hws : list Board) : Prop :=
  match hws with
  | [] => True
  | hw :: rest =>
      lnot (pin_level hw EMERGENCY_STOP_PIN) = negb stored /\ toggling (negb stored) rest
  end.

(** The events of one pass through the body of the reconnect loop. *)
Definition attempt_log (a : Attempt) : list Event :=
  match a with
  | Accepted =>
      [MqttConnected false; SerialPrint "Attempting MQTT connection...";
       MqttConnect device_id true; SerialPrintln "connected"]
  | Refused rc =>
      [MqttConnected false; SerialPrint "Attempting MQTT connection...";
       MqttConnect device_id false; SerialPrint "failed, rc="; MqttState rc;
       SerialPrint (Text.dec_int rc); SerialPrintln " retrying in 5 seconds"; Delay 5000]
  end.

(** E-stop pressed (its input pulled low), everything else nominal. *)
Definition pressed_board (t : Z) : Board :=
  {| pin_level := fun _ => LOW;
     adc_code := adc_code (nominal_board t);
     imu := None;
     clock := fun _ => t |}.

(** Iteration clocks that never run backwards and stay below the wrap of
    the counter, from [t0] on. *)
Fixpoint steady_clock (t0 : Z) (its : list Iteration) : Prop :=
  match its with
  | [] => True
  | it :: rest => t0 <= now it < 2 ^ 32 /\ steady_clock (now it) rest
  end.

(** A value that is not a number, or whose sign bit is clear. *)
Definition sign_clear (f : spec_float) : Prop :=
  match f with
  | S754_nan => True
  | S754_zero s | S754_infinity s | S754_finite s _ _ => s = false
  end.

(** * Properties *)

(** ** The model on concrete inputs *)

(** Mid-scale on a current channel is 0 A to two decimals, code 3537 is
    12 A, code 2275 on the thermistor is 50 degrees. *)
Example adc_conversions :
  Text.fixed2 (to_double (current_of (nominal_board 0) CURRENT_SENSOR_PIN_1)) = "0.00"
  /\ Text.fixed2 (to_double (current_of (faulted_board 0) CURRENT_SENSOR_PIN_1)) = "12.00"
  /\ Text.fixed2 (to_double (temperature_of (nominal_board 0) TEMP_SENSOR_PIN_1)) = "50.00".
Proof. repeat split; vm_compute; reflexivity. Qed.

(** The overload cycle on ADC codes: channel 1 at about 12 A, everything
    else nominal. *)
Example overload_on_the_adc :
  safetyState overloaded = mkSafetyState false true true true.
Proof. vm_compute. reflexivity. Qed.

(** The safety message as it goes out. *)
Example first_heartbeat_text :
  first_heartbeat
  = ("{" ++ Text.quoted "timestamp" ++ ":1050," ++ Text.quoted "device_id" ++ ":"
     ++ Text.quoted "ESP32_FIELD_001" ++ "," ++ Text.quoted "emergency_stop" ++ ":false,"
     ++ Text.quoted "door_closed" ++ ":true," ++ Text.quoted "overload_detected" ++ ":false,"
     ++ Text.quoted "temperature_ok" ++ ":true}")%string.
Proof. vm_compute. reflexivity. Qed.

(** The first iteration that does anything: at 50 ms the safety cadence is
    due and the sensor cadence is not. *)
Example first_safety_tick :
  option_map (fun r => (safety_ran (trace_of r), sensor_ran (trace_of r),
                        lastSafetyTime (state_of r), lastSensorTime (state_of r)))
             (loop (quiet_iteration 50) boot)
  = Some (true, false, 50, 0).
Proof. vm_compute. reflexivity. Qed.

(** ** Unsigned clock arithmetic *)

Lemma modulus_value : Word.modulus = 4294967296.
Proof. reflexivity. Qed.

Lemma wrap_range (z : Z) : Word.in_range (Word.wrap z).
Proof. unfold Word.in_range, Word.wrap. apply Z.mod_pos_bound. reflexivity. Qed.

(** The unsigned difference of two wrapped clock readings is the true elapsed
    time, as long as less than one full period of the counter has passed. *)
Lemma usub_elapsed (last d : Z) :
  0 <= d < Word.modulus ->
  Word.usub (Word.wrap (last + d)) (Word.wrap last) = d.
Proof.
  intros Hd. unfold Word.usub, Word.wrap.
  rewrite <- Zminus_mod.
  replace (last + d - last) with d by lia.
  apply Z.mod_small. exact Hd.
Qed.

Lemma usub_shift (now last d : Z) :
  Word.usub (Word.wrap (now + d)) last
  = Word.wrap (Word.usub (Word.wrap now) last + d).
Proof.
  unfold Word.usub, Word.wrap.
  rewrite !Zminus_mod_idemp_l.
  rewrite Zplus_mod_idemp_l.
  f_equal. lia.
Qed.

(** ** Comparisons of readings *)

Lemma SFcompare_swap (x y : spec_float) :
  SFcompare y x = match SFcompare x y with
                  | Some c => Some (CompOpp c)
                  | None => None
                  end.
Proof.
  destruct x as [sx | sx | | sx mx ex], y as [sy | sy | | sy my ey];
    simpl; try reflexivity;
    try (destruct sx; reflexivity); try (destruct sy; reflexivity);
    try (destruct sx, sy; reflexivity).
  pose proof (Pos.compare_cont_antisym my mx Eq) as Hm. simpl in Hm.
  rewrite (Z.compare_antisym ey ex), <- Hm.
  destruct sx, sy; simpl; try reflexivity;
    destruct (ey ?= ex); simpl; try reflexivity;
    now rewrite ?CompOpp_involutive.
Qed.

(** A reading that is at most the threshold does not exceed it. *)
Lemma le_fd_not_gt (f : float) (d : double) : le_fd f d = true -> gt_fd f d = false.
Proof.
  unfold le_fd, gt_fd, SFleb, SFltb.
  rewrite (SFcompare_swap (to_double f) d).
  destruct (SFcompare (to_double f) d) as [[ | | ] | ]; simpl; congruence.
Qed.

(** ** One safety cycle, in closed form *)

Lemma readCurrent_reads hw pin : reads (readCurrent hw pin) (current_of hw pin).
Proof. intros g. split; reflexivity. Qed.

Lemma readTemperature_reads hw pin : reads (readTemperature hw pin) (temperature_of hw pin).
Proof. intros g. split; reflexivity. Qed.

Ltac unfold_prog :=
  cbv beta iota zeta delta
    [checkSafety checkSafety_via adc_acquisition acq_current acq_temperature
     readCurrent readTemperature analogRead digitalRead millis millis_at mpu_getEvent
     publishSafetyData publishSensorData readSensors
     mqtt_publish serial_print serial_println delay
     bind ret gets modify emit when state_of trace_of value_of
     with_safetyState put_emergencyStop put_doorClosed put_overloadDetected
     put_temperatureOk put_lastSafetyPublish put_lastSafetyTime put_lastSensorTime
     safetyState emergencyStop doorClosed overloadDetected temperatureOk
     lastSensorTime lastSafetyTime lastSafetyPublish fst snd];
  cbn [app].

Lemma checkSafety_eq (hw : Board) (g : Globals) :
  checkSafety hw g = (tt, after_safety hw g, safety_log hw g).
Proof.
  unfold after_safety, safety_log, safety_message, publish_due, edge, heartbeat,
    evaluated, fields_of, current_of, temperature_of, unsafe, local_action.
  destruct g as [lsens lsafe [es0 dc0 ov0 tk0] lpub].
  unfold_prog.
  destruct es0, (lnot (pin_level hw EMERGENCY_STOP_PIN)),
    (lnot (pin_level hw DOOR_SENSOR_PIN)); cbn [Bool.eqb negb orb];
    match goal with
    | |- context [1000 <? ?x] => destruct (1000 <? x)
    | _ => idtac
    end;
    match goal with
    | |- context [lt_fd ?a ?b] => destruct (lt_fd a b)
    end;
    match goal with
    | |- context [gt_fd ?a ?b || gt_fd ?c ?d] => destruct (gt_fd a b), (gt_fd c d)
    end;
    reflexivity.
Qed.

Lemma safety_publishes_log (hw : Board) (g : Globals) :
  safety_publishes (safety_log hw g)
  = if publish_due hw g then [safety_message hw] else [].
Proof.
  unfold safety_log, safety_publishes, local_action, safety_message.
  destruct (edge hw g), (publish_due hw g), (unsafe (evaluated hw)); reflexivity.
Qed.

Lemma local_action_log (hw : Board) (g : Globals) :
  In local_action (safety_log hw g) <-> unsafe (evaluated hw) = true.
Proof.
  unfold safety_log, local_action, safety_message.
  destruct (edge hw g), (publish_due hw g), (unsafe (evaluated hw));
    simpl; split; intros H; try reflexivity; try discriminate;
    repeat (destruct H as [H | H]; try discriminate H); tauto.
Qed.

(** Projections of a sequenced computation. *)
Lemma state_of_bind {A B} (m : M A) (k : A -> M B) (g : Globals) :
  state_of (bind m k g) = state_of (k (value_of (m g)) (state_of (m g))).
Proof.
  unfold bind, state_of, value_of.
  destruct (m g) as [[a g1] tr1]; simpl. destruct (k a g1) as [[b g2] tr2]. reflexivity.
Qed.

Lemma trace_of_bind {A B} (m : M A) (k : A -> M B) (g : Globals) :
  trace_of (bind m k g)
  = trace_of (m g) ++ trace_of (k (value_of (m g)) (state_of (m g))).
Proof.
  unfold bind, state_of, value_of, trace_of.
  destruct (m g) as [[a g1] tr1]; simpl. destruct (k a g1) as [[b g2] tr2]. reflexivity.
Qed.


(** With any acquisition that answers [c1], [c2] and [t1], the cycle leaves
    the fields that lines 183-193 compute from them, and takes the local
    action when they are unsafe. *)
Lemma checkSafety_via_fields (acq : Acquisition) (hw : Board) (g : Globals)
    (c1 c2 t1 : float) :
  reads (acq_current acq CURRENT_SENSOR_PIN_1) c1 ->
  reads (acq_current acq CURRENT_SENSOR_PIN_2) c2 ->
  reads (acq_temperature acq TEMP_SENSOR_PIN_1) t1 ->
  safetyState (state_of (checkSafety_via acq hw g)) = fields_of hw c1 c2 t1
  /\ (unsafe (fields_of hw c1 c2 t1) = true ->
      In local_action (trace_of (checkSafety_via acq hw g))).
Proof.
  intros H1 H2 H3.
  unfold checkSafety_via.
  rewrite !state_of_bind, !trace_of_bind.
  rewrite ?(proj1 (H1 _)), ?(proj2 (H1 _)), ?(proj1 (H2 _)), ?(proj2 (H2 _)),
     ?(proj1 (H3 _)), ?(proj2 (H3 _)).
  repeat match goal with
         | |- context [trace_of (acq_current acq ?p ?s)] =>
             generalize (trace_of (acq_current acq p s)); intro
         | |- context [trace_of (acq_temperature acq ?p ?s)] =>
             generalize (trace_of (acq_temperature acq p s)); intro
         end.
  destruct g as [lsens lsafe [es0 dc0 ov0 tk0] lpub].
  unfold fields_of, unsafe, local_action. unfold_prog.
  generalize (lnot (pin_level hw EMERGENCY_STOP_PIN)) (lnot (pin_level hw DOOR_SENSOR_PIN))
    (gt_fd c1 (dlit 100 1) || gt_fd c2 (dlit 100 1)) (lt_fd t1 (dlit 850 1)).
  intros es dc ov tk.
  destruct es0, es; cbn [Bool.eqb negb]; cbv beta iota zeta;
    try match goal with |- context [1000 <? ?x] => destruct (1000 <? x) end;
    destruct dc, ov, tk; cbn [orb negb];
    (split; [reflexivity | ]);
    intros Hu; try discriminate Hu; simpl; rewrite ?in_app_iff; simpl;
    repeat (first [left; reflexivity | right]).
Qed.

(** ** Injected readings *)

Lemma injected_reads_current1 c1 c2 t1 :
  reads (acq_current (injected c1 c2 t1) CURRENT_SENSOR_PIN_1) c1.
Proof. intros g; split; reflexivity. Qed.

Lemma injected_reads_current2 c1 c2 t1 :
  reads (acq_current (injected c1 c2 t1) CURRENT_SENSOR_PIN_2) c2.
Proof. intros g; split; reflexivity. Qed.

Lemma injected_reads_temperature c1 c2 t1 :
  reads (acq_temperature (injected c1 c2 t1) TEMP_SENSOR_PIN_1) t1.
Proof. intros g; split; reflexivity. Qed.

(** ** The safety evaluator *)

(** C1. A cycle whose acquisition answers current_1 = 12.0 A, current_2 at
    most 10.0 A and temperature = 50 degrees, with the door input reading
    closed (low) and the e-stop input not asserted (high), leaves
    SafetyState{false, true, true, true}; that state is unsafe, and the local
    safety action is taken in the same cycle. The readings are those the two
    acquisition calls return: no ADC code converts to exactly 12.0 A, so they
    are injected there ([overload_on_the_adc] is the same cycle from codes). *)
Theorem overload_end_to_end (acq : Acquisition) (hw : Board) (g : Globals) (current2 : float) :
  reads (acq_current acq CURRENT_SENSOR_PIN_1) (to_float (dlit 120 1)) ->
  reads (acq_current acq CURRENT_SENSOR_PIN_2) current2 ->
  le_fd current2 (dlit 100 1) = true ->
  reads (acq_temperature acq TEMP_SENSOR_PIN_1) (to_float (dlit 500 1)) ->
  pin_level hw DOOR_SENSOR_PIN = LOW ->
  pin_level hw EMERGENCY_STOP_PIN = HIGH ->
  safetyState (state_of (checkSafety_via acq hw g)) = mkSafetyState false true true true
  /\ unsafe (safetyState (state_of (checkSafety_via acq hw g))) = true
  /\ In local_action (trace_of (checkSafety_via acq hw g)).
Proof.
  intros H1 H2 Hle H3 Hdoor Hstop.
  destruct (checkSafety_via_fields acq hw g _ _ _ H1 H2 H3) as [Hs Hact].
  assert (Hf : fields_of hw (to_float (dlit 120 1)) current2 (to_float (dlit 500 1))
               = mkSafetyState false true true true).
  { unfold fields_of. rewrite Hdoor, Hstop, (le_fd_not_gt _ _ Hle). reflexivity. }
  rewrite Hf in Hs, Hact. rewrite Hs.
  split; [reflexivity | split; [reflexivity | apply Hact; reflexivity]].
Qed.

Lemma overload_end_to_end_witness :
  let acq := injected (to_float (dlit 120 1)) (to_float (dlit 35 1)) (to_float (dlit 500 1)) in
  let hw := nominal_board 70 in
  le_fd (to_float (dlit 35 1)) (dlit 100 1) = true
  /\ pin_level hw DOOR_SENSOR_PIN = LOW
  /\ pin_level hw EMERGENCY_STOP_PIN = HIGH
  /\ safetyState (state_of (checkSafety_via acq hw boot)) = mkSafetyState false true true true
  /\ unsafe (safetyState (state_of (checkSafety_via acq hw boot))) = true
  /\ In local_action (trace_of (checkSafety_via acq hw boot)).
Proof.
  intros acq hw.
  split; [reflexivity | split; [reflexivity | split; [reflexivity | ]]].
  apply (overload_end_to_end acq hw boot (to_float (dlit 35 1))).
  - apply injected_reads_current1.
  - apply injected_reads_current2.
  - reflexivity.
  - apply injected_reads_temperature.
  - reflexivity.
  - reflexivity.
Defined.

(** C2. In every cycle the overload flag left behind is true exactly when
    one of the two current readings of that cycle exceeds 10.0 A, whatever
    the state the previous cycles left (so also whatever the flag was); in
    particular it is false again in the first cycle in which both readings
    are at most 10.0 A. *)
Theorem overload_tracks_current_cycle (acq : Acquisition) (hw : Board) (g : Globals)
    (current1 current2 temp1 : float) :
  reads (acq_current acq CURRENT_SENSOR_PIN_1) current1 ->
  reads (acq_current acq CURRENT_SENSOR_PIN_2) current2 ->
  reads (acq_temperature acq TEMP_SENSOR_PIN_1) temp1 ->
  (overloadDetected (safetyState (state_of (checkSafety_via acq hw g))) = true
   <-> gt_fd current1 (dlit 100 1) = true \/ gt_fd current2 (dlit 100 1) = true)
  /\ (le_fd current1 (dlit 100 1) = true -> le_fd current2 (dlit 100 1) = true ->
      overloadDetected (safetyState (state_of (checkSafety_via acq hw g))) = false).
Proof.
  intros H1 H2 H3.
  destruct (checkSafety_via_fields acq hw g _ _ _ H1 H2 H3) as [Hs _].
  rewrite Hs. unfold fields_of; cbn [overloadDetected].
  split.
  - apply orb_true_iff.
  - intros Hle1 Hle2. now rewrite (le_fd_not_gt _ _ Hle1), (le_fd_not_gt _ _ Hle2).
Qed.

Lemma overload_tracks_current_cycle_witness :
  let hw := nominal_board 100 in
  overloadDetected (safetyState overloaded) = true
  /\ le_fd (current_of hw CURRENT_SENSOR_PIN_1) (dlit 100 1) = true
  /\ le_fd (current_of hw CURRENT_SENSOR_PIN_2) (dlit 100 1) = true
  /\ overloadDetected (safetyState (state_of (checkSafety hw overloaded))) = false.
Proof.
  intros hw.
  split; [vm_compute; reflexivity | ].
  split; [vm_compute; reflexivity | ].
  split; [vm_compute; reflexivity | ].
  apply (overload_tracks_current_cycle (adc_acquisition hw) hw overloaded
           (current_of hw CURRENT_SENSOR_PIN_1) (current_of hw CURRENT_SENSOR_PIN_2)
           (temperature_of hw TEMP_SENSOR_PIN_1)).
  - apply readCurrent_reads.
  - apply readCurrent_reads.
  - apply readTemperature_reads.
  - vm_compute; reflexivity.
  - vm_compute; reflexivity.
Defined.

(** C8 as stated fails: with both digital inputs high the door field comes
    out false, not true. *)
Lemma floating_inputs_counterexample :
  pin_level (floating_board 50) EMERGENCY_STOP_PIN = HIGH
  /\ pin_level (floating_board 50) DOOR_SENSOR_PIN = HIGH
  /\ ~ (emergencyStop (safetyState (state_of (checkSafety (floating_board 50) boot))) = false
        /\ doorClosed (safetyState (state_of (checkSafety (floating_board 50) boot))) = true).
Proof.
  split; [reflexivity | split; [reflexivity | ]].
  intros [_ Hdoor]. vm_compute in Hdoor. discriminate Hdoor.
Qed.

(** C8, amended. Whenever both digital safety inputs read high, the cycle
    completes and leaves emergency_stop = false and door_closed = false (both
    fields are the inverse of the level read); the state is then unsafe and
    the local safety action is taken. *)
Theorem floating_inputs_read_open (hw : Board) (g : Globals) :
  pin_level hw EMERGENCY_STOP_PIN = HIGH ->
  pin_level hw DOOR_SENSOR_PIN = HIGH ->
  exists g' tr,
    checkSafety hw g = (tt, g', tr)
    /\ emergencyStop (safetyState g') = false
    /\ doorClosed (safetyState g') = false
    /\ In local_action tr.
Proof.
  intros Hstop Hdoor.
  exists (after_safety hw g), (safety_log hw g).
  split; [apply checkSafety_eq | ].
  cbn [after_safety safetyState evaluated fields_of emergencyStop doorClosed].
  rewrite Hstop, Hdoor.
  split; [reflexivity | split; [reflexivity | ]].
  apply local_action_log.
  unfold unsafe, evaluated, fields_of; cbn [emergencyStop doorClosed].
  rewrite Hstop, Hdoor. reflexivity.
Qed.

Lemma floating_inputs_read_open_witness :
  pin_level (floating_board 50) EMERGENCY_STOP_PIN = HIGH
  /\ pin_level (floating_board 50) DOOR_SENSOR_PIN = HIGH
  /\ exists g' tr,
       checkSafety (floating_board 50) boot = (tt, g', tr)
       /\ emergencyStop (safetyState g') = false
       /\ doorClosed (safetyState g') = false
       /\ In local_action tr.
Proof.
  split; [reflexivity | split; [reflexivity | ]].
  apply (floating_inputs_read_open (floating_board 50) boot); reflexivity.
Defined.

(** ** The publication policy *)


(** The heartbeat test against the true time elapsed since the stamp. *)
Lemma heartbeat_elapsed (hw : Board) (g : Globals) (stamp : Z) :
  lastSafetyPublish g = Word.wrap stamp ->
  0 <= clock hw AtHeartbeatTest - stamp < Word.modulus ->
  heartbeat hw g = (1000 <? clock hw AtHeartbeatTest - stamp).
Proof.
  intros Hlast Hd. unfold heartbeat. rewrite Hlast.
  replace (clock hw AtHeartbeatTest) with (stamp + (clock hw AtHeartbeatTest - stamp)) at 1 by lia.
  now rewrite usub_elapsed.
Qed.










(** C10. In a cycle in which emergency_stop does not transition, whatever
    the door, overload and temperature fields become in that cycle, the
    safety publishes are decided by the heartbeat test alone: none while the
    unsigned clock difference to [lastSafetyPublish] is at most 1000 (so none
    up to 1000 ms after the stamp), and from then on the one message that
    carries the fields the cycle leaves. *)
Theorem other_fields_wait_for_heartbeat (hw : Board) (g : Globals) :
  lnot (pin_level hw EMERGENCY_STOP_PIN) = emergencyStop (safetyState g) ->
  safety_publishes (trace_of (checkSafety hw g))
  = (if 1000 <? (Word.wrap (clock hw AtHeartbeatTest) - lastSafetyPublish g) mod 2 ^ 32
     then [MqttPublish mqtt_topic_safety
             (safety_payload (Word.wrap (clock hw AtSafetyPayload))
                (safetyState (state_of (checkSafety hw g))))]
     else [])
  /\ forall stamp,
       lastSafetyPublish g = Word.wrap stamp ->
       0 <= clock hw AtHeartbeatTest - stamp <= 1000 ->
       safety_publishes (trace_of (checkSafety hw g)) = [].
Proof.
  intros Hsame.
  rewrite checkSafety_eq. cbn [trace_of state_of fst snd after_safety safetyState].
  rewrite safety_publishes_log.
  unfold publish_due, edge. rewrite Hsame, Bool.eqb_reflx. cbn [negb orb].
  split; [reflexivity | ].
  intros stamp Hlast Hd.
  rewrite (heartbeat_elapsed hw g stamp Hlast).
  - destruct (1000 <? clock hw AtHeartbeatTest - stamp) eqn:E; [ | reflexivity].
    apply Z.ltb_lt in E. lia.
  - rewrite modulus_value. lia.
Qed.

Lemma other_fields_wait_for_heartbeat_witness :
  let g := put_lastSafetyPublish (Word.wrap 1050) boot in
  let hw := faulted_board 1950 in
  lnot (pin_level hw EMERGENCY_STOP_PIN) = emergencyStop (safetyState g)
  /\ lastSafetyPublish g = Word.wrap 1050
  /\ 0 <= clock hw AtHeartbeatTest - 1050 <= 1000
  /\ safetyState g = mkSafetyState false true false true
  /\ safetyState (state_of (checkSafety hw g)) = mkSafetyState false false true false
  /\ safety_publishes (trace_of (checkSafety hw g)) = [].
Proof.
  intros g hw.
  split; [reflexivity | ].
  split; [reflexivity | ].
  split; [vm_compute; split; discriminate | ].
  split; [reflexivity | ].
  split; [vm_compute; reflexivity | ].
  apply (proj2 (other_fields_wait_for_heartbeat hw g eq_refl) 1050).
  - reflexivity.
  - vm_compute; split; discriminate.
Defined.

(** ** Telemetry sampling *)

Lemma readSensors_eq (hw : Board) (g : Globals) :
  readSensors hw g = (tt, g, sensor_log hw).
Proof.
  unfold sensor_log, sensor_message, vibration_of, current_of, temperature_of, zero.
  unfold_prog.
  destruct (imu hw) as [[[x y] z] | ]; reflexivity.
Qed.

Lemma data_publishes_log (hw : Board) :
  data_publishes (sensor_log hw) = [sensor_message hw].
Proof.
  unfold sensor_log, sensor_message.
  destruct (vibration_of hw) as [[x y] z]. reflexivity.
Qed.

(** C9 as stated fails: a failed inertial read is published as the reading
    (0, 0, 0): the telemetry is the very message a successful read of zero
    acceleration gives, and no marker of unavailability exists. *)
Lemma silent_zero_counterexample :
  let failed := nominal_board 100 in
  let still := with_imu (Some (zero, zero, zero)) (nominal_board 100) in
  imu failed = None
  /\ imu still = Some (zero, zero, zero)
  /\ data_publishes (trace_of (readSensors failed boot))
     = data_publishes (trace_of (readSensors still boot))
  /\ data_publishes (trace_of (readSensors failed boot))
     = [MqttPublish mqtt_topic_data
          (sensor_payload 100 (current_of failed CURRENT_SENSOR_PIN_1)
             (current_of failed CURRENT_SENSOR_PIN_2) zero zero zero zero
             (temperature_of failed TEMP_SENSOR_PIN_1))].
Proof.
  intros failed still.
  split; [reflexivity | split; [reflexivity | ]].
  split; vm_compute; reflexivity.
Qed.

(** C9, amended. In every telemetry cycle in which the inertial read fails,
    0 is substituted for x, y and z (and so for the magnitude) and published
    as the vibration reading; the message equals the one a successful read
    of (0, 0, 0) gives. *)
Theorem failed_imu_publishes_zero (hw : Board) (g : Globals) :
  imu hw = None ->
  data_publishes (trace_of (readSensors hw g))
  = [MqttPublish mqtt_topic_data
       (sensor_payload (Word.wrap (clock hw AtSensorPayload))
          (current_of hw CURRENT_SENSOR_PIN_1) (current_of hw CURRENT_SENSOR_PIN_2)
          zero zero zero zero (temperature_of hw TEMP_SENSOR_PIN_1))]
  /\ data_publishes (trace_of (readSensors hw g))
     = data_publishes (trace_of (readSensors (with_imu (Some (zero, zero, zero)) hw) g)).
Proof.
  intros Hfail.
  rewrite !readSensors_eq. cbn [trace_of snd].
  rewrite !data_publishes_log.
  unfold sensor_message, vibration_of. rewrite Hfail.
  cbn [with_imu imu clock adc_code].
  split; reflexivity.
Qed.

Lemma failed_imu_publishes_zero_witness :
  let hw := nominal_board 100 in
  imu hw = None
  /\ data_publishes (trace_of (readSensors hw boot))
     = [MqttPublish mqtt_topic_data
          (sensor_payload (Word.wrap (clock hw AtSensorPayload))
             (current_of hw CURRENT_SENSOR_PIN_1) (current_of hw CURRENT_SENSOR_PIN_2)
             zero zero zero zero (temperature_of hw TEMP_SENSOR_PIN_1))]
  /\ data_publishes (trace_of (readSensors hw boot))
     = data_publishes (trace_of (readSensors (with_imu (Some (zero, zero, zero)) hw) boot)).
Proof.
  intros hw.
  split; [reflexivity | ].
  apply (failed_imu_publishes_zero hw boot). reflexivity.
Defined.

(** ** The scheduler, in closed form *)

Lemma reconnectMQTT_eq (attempts : list Attempt) (g : Globals) :
  reconnectMQTT attempts g = (tt, g, trace_of (reconnectMQTT attempts boot)).
Proof.
  revert g. induction attempts as [ | a rest IH]; intros g; [reflexivity | ].
  cbn [reconnectMQTT].
  destruct a as [ | rc];
    cbv beta iota zeta delta [bind emit serial_print serial_println delay trace_of snd];
    rewrite IH, (IH boot); reflexivity.
Qed.

Lemma reconnectMQTT_upkeep (attempts : list Attempt) (g : Globals) :
  upkeep_only (trace_of (reconnectMQTT attempts g)).
Proof.
  unfold upkeep_only.
  induction attempts as [ | a rest IH]; [repeat constructor | ].
  cbn [reconnectMQTT]. rewrite !trace_of_bind.
  apply Forall_app; split; [repeat constructor | ].
  apply Forall_app; split; [repeat constructor | ].
  apply Forall_app; split.
  - destruct a; cbv; repeat constructor.
  - rewrite reconnectMQTT_eq. cbn [trace_of snd].
    rewrite reconnectMQTT_eq in IH. exact IH.
Qed.

Lemma maintain_eq (attempts : option (list Attempt)) (g : Globals) :
  maintain attempts g = (tt, g, link_log attempts).
Proof.
  unfold link_log, maintain. destruct attempts as [l | ]; [ | reflexivity].
  cbv beta iota zeta delta [bind emit trace_of snd].
  rewrite (reconnectMQTT_eq l g), (reconnectMQTT_eq l boot). reflexivity.
Qed.

Lemma link_log_upkeep (attempts : option (list Attempt)) : upkeep_only (link_log attempts).
Proof.
  unfold link_log, maintain. rewrite !trace_of_bind.
  apply Forall_app; split; [ | repeat constructor].
  destruct attempts as [l | ]; [ | repeat constructor].
  rewrite trace_of_bind. apply Forall_app; split; [repeat constructor | ].
  apply reconnectMQTT_upkeep.
Qed.

Lemma after_safety_tick_lastSensorTime (it : Iteration) (g : Globals) :
  lastSensorTime (after_safety_tick it g) = lastSensorTime g.
Proof. unfold after_safety_tick. cbv zeta. destruct (safety_due _ g); reflexivity. Qed.

Lemma dispatch_eq (it : Iteration) (g : Globals) :
  dispatch it g
  = (tt, after_dispatch it g,
     Millis (Word.wrap (now it)) :: safety_part it g ++ sensor_part it g).
Proof.
  assert (Hsens : sensor_due (Word.wrap (now it)) (after_safety_tick it g)
                  = sensor_due (Word.wrap (now it)) g).
  { unfold sensor_due. now rewrite after_safety_tick_lastSensorTime. }
  revert Hsens.
  unfold after_dispatch, after_safety_tick, safety_part, sensor_part, dispatch.
  cbv beta iota zeta delta [bind millis_at emit ret gets when modify].
  destruct (safety_due (Word.wrap (now it)) g).
  - rewrite checkSafety_eq. intros ->.
    destruct (sensor_due (Word.wrap (now it)) g).
    + rewrite readSensors_eq. cbn [app]. reflexivity.
    + cbn [app]. rewrite ?app_nil_r. reflexivity.
  - intros _. destruct (sensor_due (Word.wrap (now it)) g).
    + rewrite readSensors_eq. reflexivity.
    + reflexivity.
Qed.

Lemma loop_eq (it : Iteration) (g : Globals) :
  link it <> LinkLost ->
  loop it g
  = Some (tt, after_dispatch it g,
          link_log (attempts_of (link it))
          ++ Millis (Word.wrap (now it)) :: safety_part it g ++ sensor_part it g).
Proof.
  intros Hlink. unfold loop.
  destruct (link it) as [ | l | ]; [ | | congruence]; cbn [attempts_of];
    unfold bind at 1; rewrite maintain_eq, dispatch_eq; reflexivity.
Qed.

Lemma upkeep_no_cadence (tr : list Event) :
  upkeep_only tr -> safety_ran tr = false /\ sensor_ran tr = false.
Proof.
  unfold upkeep_only, safety_ran, sensor_ran.
  induction 1 as [ | e tr He _ [IH1 IH2]]; [split; reflexivity | ].
  cbn [existsb]. rewrite IH1, IH2.
  destruct e; try discriminate He; split; reflexivity.
Qed.

Lemma safety_log_ran (hw : Board) (g : Globals) :
  safety_ran (safety_log hw g) = true /\ sensor_ran (safety_log hw g) = false.
Proof.
  unfold safety_log, safety_message, local_action.
  destruct (edge hw g), (publish_due hw g), (unsafe (evaluated hw)); split; reflexivity.
Qed.

Lemma sensor_log_ran (hw : Board) :
  safety_ran (sensor_log hw) = false /\ sensor_ran (sensor_log hw) = true.
Proof.
  unfold sensor_log, sensor_message.
  destruct (vibration_of hw) as [[x y] z]. split; reflexivity.
Qed.

Lemma loop_ran (it : Iteration) (g : Globals) :
  safety_ran (link_log (attempts_of (link it))
              ++ Millis (Word.wrap (now it)) :: safety_part it g ++ sensor_part it g)
  = safety_due (Word.wrap (now it)) g
  /\ sensor_ran (link_log (attempts_of (link it))
                 ++ Millis (Word.wrap (now it)) :: safety_part it g ++ sensor_part it g)
     = sensor_due (Word.wrap (now it)) g.
Proof.
  destruct (upkeep_no_cadence _ (link_log_upkeep (attempts_of (link it)))) as [Hl1 Hl2].
  unfold safety_ran, sensor_ran in *.
  rewrite !existsb_app, Hl1, Hl2. cbn [existsb is_digital_read is_imu_query orb].
  rewrite !existsb_app.
  unfold safety_part, sensor_part. cbv zeta.
  destruct (safety_due (Word.wrap (now it)) g), (sensor_due (Word.wrap (now it)) g);
    repeat match goal with
      | |- context [safety_log ?hw ?s] =>
          let H1 := fresh in let H2 := fresh in
          destruct (safety_log_ran hw s) as [H1 H2];
          unfold safety_ran, sensor_ran in H1, H2; rewrite H1, H2; clear H1 H2
      | |- context [sensor_log ?hw] =>
          let H1 := fresh in let H2 := fresh in
          destruct (sensor_log_ran hw) as [H1 H2];
          unfold safety_ran, sensor_ran in H1, H2; rewrite H1, H2; clear H1 H2
      end;
    split; reflexivity.
Qed.

(** C7. An iteration dispatches the safety cadence exactly when the unsigned
    difference (current - last) modulo 2^32 is at least 50, and the sensor
    cadence exactly when it is at least 100, for every pair of clock values;
    and whenever less than one turn of the counter has passed since the last
    dispatch, that difference is the true elapsed time, wrapped clock or
    not: a cadence whose period has elapsed is dispatched. *)
Theorem cadence_dispatch_unsigned (it : Iteration) (g : Globals) :
  link it <> LinkLost ->
  exists g' tr,
    loop it g = Some (tt, g', tr)
    /\ (safety_ran tr = true
        <-> SAFETY_INTERVAL <= (Word.wrap (now it) - lastSafetyTime g) mod 2 ^ 32)
    /\ (sensor_ran tr = true
        <-> SENSOR_INTERVAL <= (Word.wrap (now it) - lastSensorTime g) mod 2 ^ 32)
    /\ (forall last, lastSafetyTime g = Word.wrap last ->
                     0 <= now it - last < 2 ^ 32 ->
                     (safety_ran tr = true <-> SAFETY_INTERVAL <= now it - last))
    /\ (forall last, lastSensorTime g = Word.wrap last ->
                     0 <= now it - last < 2 ^ 32 ->
                     (sensor_ran tr = true <-> SENSOR_INTERVAL <= now it - last)).
Proof.
  intros Hlink.
  eexists _, _. split; [apply (loop_eq it g Hlink) | ].
  destruct (loop_ran it g) as [Hs Ht]. rewrite Hs, Ht.
  unfold safety_due, sensor_due.
  split; [apply Z.leb_le | split; [apply Z.leb_le | ]].
  split; intros last Hlast Hd; rewrite Z.leb_le, Hlast;
    replace (now it) with (last + (now it - last)) at 1 by lia;
    rewrite usub_elapsed by exact Hd; reflexivity.
Qed.

(** Last safety dispatch 10 ms before the counter wraps, the iteration 45 ms
    after the wrap: 55 ms elapsed, the safety cadence is dispatched and the
    sensor cadence is not. *)
Lemma cadence_dispatch_unsigned_witness :
  let g := put_lastSafetyTime (Word.wrap 4294967286)
             (put_lastSensorTime (Word.wrap 4294967286) boot) in
  let it := quiet_iteration 4294967341 in
  link it <> LinkLost
  /\ exists g' tr,
       loop it g = Some (tt, g', tr)
       /\ safety_ran tr = true
       /\ sensor_ran tr = false.
Proof.
  intros g it.
  assert (Hlink : link it <> LinkLost) by discriminate.
  split; [exact Hlink | ].
  destruct (cadence_dispatch_unsigned it g Hlink) as [g' [tr [Hloop [_ [_ [Hs Ht]]]]]].
  exists g', tr.
  assert (Hd : 0 <= now it - 4294967286 < 2 ^ 32) by (cbn; lia).
  split; [exact Hloop | split].
  - apply (Hs 4294967286 eq_refl Hd). cbn. unfold SAFETY_INTERVAL. lia.
  - destruct (sensor_ran tr); [ | reflexivity].
    exfalso. pose proof (proj1 (Ht 4294967286 eq_refl Hd) eq_refl) as H.
    cbn in H. unfold SENSOR_INTERVAL in H. lia.
Defined.

(** After any iteration, fewer than 50 ms separate the scheduler's clock
    reading from the last safety dispatch. *)
Lemma safety_fresh_after (it : Iteration) (g : Globals) :
  0 <= Word.usub (Word.wrap (now it)) (lastSafetyTime (after_dispatch it g)) < SAFETY_INTERVAL.
Proof.
  assert (Hrange : forall z, 0 <= Word.wrap z < Word.modulus) by apply wrap_range.
  unfold after_dispatch, after_safety_tick. cbv zeta.
  destruct (safety_due (Word.wrap (now it)) g) eqn:Hdue.
  - assert (Hls : lastSafetyTime
                    (if sensor_due (Word.wrap (now it)) g
                     then put_lastSensorTime (Word.wrap (now it))
                            (after_safety (safety_hw it)
                               (put_lastSafetyTime (Word.wrap (now it)) g))
                     else after_safety (safety_hw it)
                            (put_lastSafetyTime (Word.wrap (now it)) g))
                  = Word.wrap (now it)).
    { destruct (sensor_due _ g); reflexivity. }
    rewrite Hls. unfold Word.usub. rewrite Z.sub_diag.
    cbv. split; [discriminate | reflexivity].
  - assert (Hls : lastSafetyTime
                    (if sensor_due (Word.wrap (now it)) g
                     then put_lastSensorTime (Word.wrap (now it)) g else g)
                  = lastSafetyTime g).
    { destruct (sensor_due _ g); reflexivity. }
    rewrite Hls. unfold safety_due in Hdue. apply Z.leb_gt in Hdue.
    split; [apply Hrange | exact Hdue].
Qed.

(** C4. In every iteration that returns, the log is the transport upkeep
    and the clock read, then the whole of [checkSafety] when the safety
    cadence is due, then the whole of [readSensors] when the sensor cadence
    is due: safety always precedes sensor. And when the next iteration
    starts [d] ms later, for whatever reason the time passed (the sensor body
    overran, the reconnect blocked), with 50 <= d < 2^32 - 50, the safety
    cadence is due in that iteration and [checkSafety] runs in it ahead of
    any [readSensors]. *)
Theorem safety_before_sensor (it : Iteration) (g : Globals) :
  link it <> LinkLost ->
  exists g' pre,
    let t := Word.wrap (now it) in
    loop it g
    = Some (tt, g',
            pre
            ++ (if safety_due t g
                then trace_of (checkSafety (safety_hw it) (put_lastSafetyTime t g))
                else [])
            ++ (if sensor_due t g then trace_of (readSensors (sensor_hw it) g') else []))
    /\ upkeep_only pre
    /\ forall (next : Iteration) (d : Z),
         link next <> LinkLost ->
         now next = now it + d ->
         50 <= d < 2 ^ 32 - 50 ->
         exists g'' pre',
           let t' := Word.wrap (now next) in
           loop next g'
           = Some (tt, g'',
                   pre'
                   ++ trace_of (checkSafety (safety_hw next) (put_lastSafetyTime t' g'))
                   ++ (if sensor_due t' g'
                       then trace_of (readSensors (sensor_hw next) g'') else []))
           /\ upkeep_only pre'.
Proof.
  assert (Hshape : forall (i : Iteration) (s : Globals), link i <> LinkLost ->
            loop i s
            = Some (tt, after_dispatch i s,
                    (link_log (attempts_of (link i)) ++ [Millis (Word.wrap (now i))])
                    ++ (if safety_due (Word.wrap (now i)) s
                        then trace_of (checkSafety (safety_hw i)
                                         (put_lastSafetyTime (Word.wrap (now i)) s))
                        else [])
                    ++ (if sensor_due (Word.wrap (now i)) s
                        then trace_of (readSensors (sensor_hw i) (after_dispatch i s))
                        else []))
            /\ upkeep_only (link_log (attempts_of (link i)) ++ [Millis (Word.wrap (now i))])).
  { intros i s Hl. split.
    - rewrite (loop_eq i s Hl). unfold safety_part, sensor_part. cbv zeta.
      rewrite checkSafety_eq, readSensors_eq. cbn [trace_of snd].
      rewrite <- app_assoc. reflexivity.
    - apply Forall_app; split; [apply link_log_upkeep | repeat constructor]. }
  intros Hlink.
  destruct (Hshape it g Hlink) as [Hloop Hpre].
  eexists _, _. cbv zeta.
  split; [exact Hloop | split; [exact Hpre | ]].
  intros next d Hnext Hnow Hd.
  destruct (Hshape next (after_dispatch it g) Hnext) as [Hloop' Hpre'].
  assert (Hdue : safety_due (Word.wrap (now next)) (after_dispatch it g) = true).
  { unfold safety_due. apply Z.leb_le.
    rewrite Hnow, usub_shift.
    pose proof (safety_fresh_after it g) as Hfresh.
    unfold SAFETY_INTERVAL in *.
    unfold Word.wrap at 1. rewrite Z.mod_small; [lia | ].
    rewrite modulus_value. lia. }
  rewrite Hdue in Hloop'.
  eexists _, _. split; [exact Hloop' | exact Hpre'].
Qed.

(** Both cadences due at 100 ms; the sensor body then keeps the loop busy
    for 5250 ms, and the next iteration again runs safety first. *)
Lemma safety_before_sensor_witness :
  let it := quiet_iteration 100 in
  let next := quiet_iteration 5350 in
  link it <> LinkLost
  /\ safety_due (Word.wrap (now it)) boot = true
  /\ sensor_due (Word.wrap (now it)) boot = true
  /\ exists g' pre,
       loop it boot
       = Some (tt, g',
               pre
               ++ trace_of (checkSafety (safety_hw it) (put_lastSafetyTime (Word.wrap (now it)) boot))
               ++ trace_of (readSensors (sensor_hw it) g'))
       /\ upkeep_only pre
       /\ exists g'' pre',
            loop next g'
            = Some (tt, g'',
                    pre'
                    ++ trace_of (checkSafety (safety_hw next)
                                   (put_lastSafetyTime (Word.wrap (now next)) g'))
                    ++ (if sensor_due (Word.wrap (now next)) g'
                        then trace_of (readSensors (sensor_hw next) g'') else []))
            /\ upkeep_only pre'.
Proof.
  intros it next.
  assert (Hlink : link it <> LinkLost) by discriminate.
  split; [exact Hlink | split; [reflexivity | split; [reflexivity | ]]].
  destruct (safety_before_sensor it boot Hlink) as [g' [pre [Hloop [Hpre Hnext]]]].
  exists g', pre.
  split; [exact Hloop | split; [exact Hpre | ]].
  apply (Hnext next 5250).
  - discriminate.
  - reflexivity.
  - cbn. lia.
Defined.


(** * Further properties of the code *)

(** ** The conversions over the twelve-bit range *)

Lemma current_of_code_eq (hw : Board) (pin : Z) :
  current_of hw pin = current_of_code (adc_code hw pin).
Proof. reflexivity. Qed.

Lemma temperature_of_code_eq (hw : Board) (pin : Z) :
  temperature_of hw pin = temperature_of_code (adc_code hw pin).
Proof. reflexivity. Qed.

Lemma over_adc_codes (P : Z -> bool) :
  forallb P adc_codes = true -> forall code, 0 <= code <= 4095 -> P code = true.
Proof.
  intros Hall code Hcode.
  rewrite forallb_forall in Hall. apply Hall.
  unfold adc_codes. rewrite <- (Z2Nat.id code) by lia.
  apply in_map, in_seq. lia.
Qed.

(** All 4096 codes, evaluated. *)
Lemma conversion_table : forallb conversion_check adc_codes = true.
Proof. vm_compute. reflexivity. Qed.

Lemma conversion_check_at (code : Z) :
  0 <= code <= 4095 ->
  gt_fd (current_of_code code) (dlit 100 1) = ((code <=? 806) || (3289 <=? code))
  /\ lt_fd (temperature_of_code code) (dlit 850 1) = (code <=? 2519)
  /\ is_finite (current_of_code code) = true
  /\ SFleb zero (current_of_code code) = true
  /\ le_fd (current_of_code code) (dlit 165 1) = true
  /\ is_finite (temperature_of_code code) = true
  /\ SFleb (to_float (dlit (-75) 0)) (temperature_of_code code) = true.
Proof.
  intros Hcode.
  pose proof (over_adc_codes conversion_check conversion_table code Hcode) as H.
  unfold conversion_check in H. cbv zeta in H.
  repeat (apply andb_prop in H; destruct H as [H ?]).
  apply Bool.eqb_prop in H.
  repeat match goal with
         | E : Bool.eqb _ _ = true |- _ => apply Bool.eqb_prop in E
         end.
  repeat split; assumption.
Qed.

(** X1. On every twelve-bit code [readCurrent] answers a finite reading
    between 0 A and 16.5 A. *)
Theorem readCurrent_range (hw : Board) (pin : Z) (g : Globals) :
  0 <= adc_code hw pin <= 4095 ->
  is_finite (value_of (readCurrent hw pin g)) = true
  /\ SFleb zero (value_of (readCurrent hw pin g)) = true
  /\ le_fd (value_of (readCurrent hw pin g)) (dlit 165 1) = true.
Proof.
  intros Hcode.
  change (value_of (readCurrent hw pin g)) with (current_of_code (adc_code hw pin)).
  destruct (conversion_check_at _ Hcode) as (_ & _ & Hf & H0 & Hmax & _).
  repeat split; assumption.
Qed.

Lemma readCurrent_range_witness :
  0 <= adc_code (nominal_board 0) CURRENT_SENSOR_PIN_1 <= 4095
  /\ is_finite (value_of (readCurrent (nominal_board 0) CURRENT_SENSOR_PIN_1 boot)) = true
  /\ SFleb zero (value_of (readCurrent (nominal_board 0) CURRENT_SENSOR_PIN_1 boot)) = true
  /\ le_fd (value_of (readCurrent (nominal_board 0) CURRENT_SENSOR_PIN_1 boot)) (dlit 165 1) = true.
Proof.
  assert (H : 0 <= adc_code (nominal_board 0) CURRENT_SENSOR_PIN_1 <= 4095) by (cbn; lia).
  split; [exact H | ].
  exact (readCurrent_range (nominal_board 0) CURRENT_SENSOR_PIN_1 boot H).
Defined.

(** X2. With twelve-bit codes on both current channels, a safety cycle
    leaves the overload flag set exactly when one of the two codes is at most
    806 or at least 3289 (more than 10 A either way round mid-scale). *)
Theorem overload_in_codes (hw : Board) (g : Globals) :
  0 <= adc_code hw CURRENT_SENSOR_PIN_1 <= 4095 ->
  0 <= adc_code hw CURRENT_SENSOR_PIN_2 <= 4095 ->
  (overloadDetected (safetyState (state_of (checkSafety hw g))) = true
   <-> (adc_code hw CURRENT_SENSOR_PIN_1 <= 806 \/ 3289 <= adc_code hw CURRENT_SENSOR_PIN_1
        \/ adc_code hw CURRENT_SENSOR_PIN_2 <= 806 \/ 3289 <= adc_code hw CURRENT_SENSOR_PIN_2)).
Proof.
  intros H1 H2.
  rewrite checkSafety_eq.
  cbn [state_of fst snd after_safety safetyState evaluated fields_of overloadDetected].
  rewrite !current_of_code_eq.
  destruct (conversion_check_at _ H1) as (E1 & _).
  destruct (conversion_check_at _ H2) as (E2 & _).
  rewrite E1, E2, !orb_true_iff, !Z.leb_le. tauto.
Qed.

Lemma overload_in_codes_witness :
  let hw := faulted_board 0 in
  0 <= adc_code hw CURRENT_SENSOR_PIN_1 <= 4095
  /\ 0 <= adc_code hw CURRENT_SENSOR_PIN_2 <= 4095
  /\ (overloadDetected (safetyState (state_of (checkSafety hw boot))) = true
      <-> (adc_code hw CURRENT_SENSOR_PIN_1 <= 806 \/ 3289 <= adc_code hw CURRENT_SENSOR_PIN_1
           \/ adc_code hw CURRENT_SENSOR_PIN_2 <= 806 \/ 3289 <= adc_code hw CURRENT_SENSOR_PIN_2)).
Proof.
  intros hw.
  assert (H1 : 0 <= adc_code hw CURRENT_SENSOR_PIN_1 <= 4095) by (cbn; lia).
  assert (H2 : 0 <= adc_code hw CURRENT_SENSOR_PIN_2 <= 4095) by (cbn; lia).
  split; [exact H1 | split; [exact H2 | ]].
  exact (overload_in_codes hw boot H1 H2).
Defined.

(** X3. On every twelve-bit code [readTemperature] answers a finite reading
    of at least -75 degrees (the divisor 3.3 - voltage never reaches zero,
    full scale included), and a safety cycle leaves temperature_ok set
    exactly when the code is at most 2519. *)
Theorem temperature_in_codes (hw : Board) (g : Globals) :
  0 <= adc_code hw TEMP_SENSOR_PIN_1 <= 4095 ->
  is_finite (value_of (readTemperature hw TEMP_SENSOR_PIN_1 g)) = true
  /\ SFleb (to_float (dlit (-75) 0)) (value_of (readTemperature hw TEMP_SENSOR_PIN_1 g)) = true
  /\ (temperatureOk (safetyState (state_of (checkSafety hw g))) = true
      <-> adc_code hw TEMP_SENSOR_PIN_1 <= 2519).
Proof.
  intros Hcode.
  change (value_of (readTemperature hw TEMP_SENSOR_PIN_1 g))
    with (temperature_of_code (adc_code hw TEMP_SENSOR_PIN_1)).
  rewrite checkSafety_eq.
  cbn [state_of fst snd after_safety safetyState evaluated fields_of temperatureOk].
  rewrite temperature_of_code_eq.
  destruct (conversion_check_at _ Hcode) as (_ & E & _ & _ & _ & Hf & Hmin).
  rewrite E, Z.leb_le.
  split; [exact Hf | split; [exact Hmin | reflexivity]].
Qed.

Lemma temperature_in_codes_witness :
  let hw := nominal_board 0 in
  0 <= adc_code hw TEMP_SENSOR_PIN_1 <= 4095
  /\ is_finite (value_of (readTemperature hw TEMP_SENSOR_PIN_1 boot)) = true
  /\ SFleb (to_float (dlit (-75) 0)) (value_of (readTemperature hw TEMP_SENSOR_PIN_1 boot)) = true
  /\ (temperatureOk (safetyState (state_of (checkSafety hw boot))) = true
      <-> adc_code hw TEMP_SENSOR_PIN_1 <= 2519).
Proof.
  intros hw.
  assert (H : 0 <= adc_code hw TEMP_SENSOR_PIN_1 <= 4095) by (cbn; lia).
  split; [exact H | ].
  exact (temperature_in_codes hw boot H).
Defined.

(** ** The safety message *)

Lemma little_double_digits (d : Decimal.uint) :
  (Decimal.nb_digits (Decimal.Little.double d) <= S (Decimal.nb_digits d))%nat
  /\ (Decimal.nb_digits (Decimal.Little.succ_double d) <= S (Decimal.nb_digits d))%nat.
Proof.
  induction d as [ | d [IH1 IH2] | d [IH1 IH2] | d [IH1 IH2] | d [IH1 IH2] | d [IH1 IH2]
                  | d [IH1 IH2] | d [IH1 IH2] | d [IH1 IH2] | d [IH1 IH2] | d [IH1 IH2]];
    simpl; split; lia.
Qed.

(** A number below [2^n] has at most [n] decimal digits. *)
Lemma to_little_uint_digits (p : positive) (n : nat) :
  Zpos p < 2 ^ Z.of_nat n -> (Decimal.nb_digits (Pos.to_little_uint p) <= n)%nat.
Proof.
  revert n. induction p as [p IH | p IH | ]; intros n Hp;
    (destruct n as [ | n]; [simpl in Hp; lia | ]);
    rewrite Nat2Z.inj_succ, Z.pow_succ_r in Hp by lia; simpl.
  - pose proof (proj2 (little_double_digits (Pos.to_little_uint p))).
    assert (Decimal.nb_digits (Pos.to_little_uint p) <= n)%nat by (apply IH; lia). lia.
  - pose proof (proj1 (little_double_digits (Pos.to_little_uint p))).
    assert (Decimal.nb_digits (Pos.to_little_uint p) <= n)%nat by (apply IH; lia). lia.
  - lia.
Qed.

Lemma string_of_uint_length (d : Decimal.uint) :
  String.length (NilEmpty.string_of_uint d) = Decimal.nb_digits d.
Proof. induction d; simpl; congruence. Qed.

Lemma dec_length (t : Z) :
  0 <= t < 2 ^ 32 -> (String.length (Text.dec t) <= 32)%nat.
Proof.
  intros Ht. unfold Text.dec.
  destruct t as [ | p | p]; [simpl; lia | | lia].
  cbn [Z.to_N N.to_uint]. unfold Pos.to_uint.
  assert (Hd : (Decimal.nb_digits (Decimal.rev (Pos.to_little_uint p)) <= 32)%nat).
  { rewrite DecimalFacts.nb_digits_rev. apply to_little_uint_digits. exact (proj2 Ht). }
  unfold NilZero.string_of_uint.
  destruct (Decimal.rev (Pos.to_little_uint p)) eqn:E;
    [simpl; lia | rewrite string_of_uint_length; exact Hd ..].
Qed.

Lemma length_append (a b : string) :
  String.length (a ++ b)%string = (String.length a + String.length b)%nat.
Proof. induction a as [ | c a IH]; simpl; [reflexivity | now rewrite IH]. Qed.

Lemma substring_whole (n : nat) (s : string) :
  (String.length s <= n)%nat -> substring 0 n s = s.
Proof.
  revert n. induction s as [ | c s IH]; intros n Hn; destruct n as [ | n];
    simpl in *; try reflexivity; try lia.
  rewrite IH by lia. reflexivity.
Qed.

Lemma append_cancel_l (a b c : string) : (a ++ b)%string = (a ++ c)%string -> b = c.
Proof.
  induction a as [ | x a IH]; simpl; intros H; [exact H | ].
  injection H as H. apply IH. exact H.
Qed.

Lemma safety_format_expands (t : Z) (s : SafetyState) :
  Text.format safety_format
    [Text.ArgULong t; Text.ArgStr device_id;
     Text.ArgStr (Text.bool_text (emergencyStop s));
     Text.ArgStr (Text.bool_text (doorClosed s));
     Text.ArgStr (Text.bool_text (overloadDetected s));
     Text.ArgStr (Text.bool_text (temperatureOk s))]
  = ("{" ++ Text.quoted "timestamp" ++ ":" ++ Text.dec t ++ flags_text s)%string.
Proof. destruct s as [[] [] [] []]; reflexivity. Qed.

Lemma flags_text_length (s : SafetyState) : (String.length (flags_text s) <= 130)%nat.
Proof. destruct s as [[] [] [] []]; vm_compute; repeat constructor. Qed.

Lemma flags_text_inj (s1 s2 : SafetyState) : flags_text s1 = flags_text s2 -> s1 = s2.
Proof.
  destruct s1 as [[] [] [] []], s2 as [[] [] [] []]; intros H;
    first [reflexivity | vm_compute in H; discriminate H].
Qed.

(** X4. A safety message is never cut by the 256-byte buffer, and at a
    given timestamp two different safety states never serialize to the same
    message: all four flags can be read back from it. *)
Theorem safety_payload_lossless (t : Z) (s1 s2 : SafetyState) :
  0 <= t < 2 ^ 32 ->
  safety_payload t s1
  = ("{" ++ Text.quoted "timestamp" ++ ":" ++ Text.dec t ++ flags_text s1)%string
  /\ (safety_payload t s1 = safety_payload t s2 -> s1 = s2).
Proof.
  intros Ht.
  assert (Hwhole : forall s,
            safety_payload t s
            = ("{" ++ Text.quoted "timestamp" ++ ":" ++ Text.dec t ++ flags_text s)%string).
  { intros s. unfold safety_payload, Text.snprintf.
    rewrite safety_format_expands. apply substring_whole.
    rewrite !length_append.
    pose proof (dec_length t Ht). pose proof (flags_text_length s).
    change (String.length "{") with 1%nat.
    change (String.length (Text.quoted "timestamp")) with 11%nat.
    change (String.length ":") with 1%nat.
    change (256 - 1)%nat with 255%nat. lia. }
  split; [apply Hwhole | ].
  rewrite !Hwhole. intros Heq.
  apply flags_text_inj.
  do 4 (apply append_cancel_l in Heq). exact Heq.
Qed.

Lemma safety_payload_lossless_witness :
  0 <= 4294967295 < 2 ^ 32
  /\ safety_payload 4294967295 (mkSafetyState true false true false)
     = ("{" ++ Text.quoted "timestamp" ++ ":" ++ Text.dec 4294967295
        ++ flags_text (mkSafetyState true false true false))%string
  /\ (safety_payload 4294967295 (mkSafetyState true false true false)
      = safety_payload 4294967295 (mkSafetyState true false true true)
      -> mkSafetyState true false true false = mkSafetyState true false true true).
Proof.
  assert (H : 0 <= 4294967295 < 2 ^ 32) by (cbn; lia).
  split; [exact H | ].
  exact (safety_payload_lossless 4294967295 (mkSafetyState true false true false)
           (mkSafetyState true false true true) H).
Defined.

(** ** The safety cycle *)

(** X5. The local safety action is taken in exactly the cycles that leave
    an unsafe state (e-stop asserted, door open, overload or temperature not
    ok), whatever was the case before; and it is the last thing the cycle
    does: any safety publish of the cycle has already gone out. *)
Theorem local_action_iff_unsafe (hw : Board) (g : Globals) :
  (In local_action (trace_of (checkSafety hw g))
   <-> (emergencyStop (safetyState (state_of (checkSafety hw g))) = true
        \/ doorClosed (safetyState (state_of (checkSafety hw g))) = false
        \/ overloadDetected (safetyState (state_of (checkSafety hw g))) = true
        \/ temperatureOk (safetyState (state_of (checkSafety hw g))) = false))
  /\ (In local_action (trace_of (checkSafety hw g)) ->
      exists before,
        trace_of (checkSafety hw g) = before ++ [local_action]
        /\ ~ In local_action before
        /\ safety_publishes before = safety_publishes (trace_of (checkSafety hw g))).
Proof.
  rewrite checkSafety_eq. cbn [trace_of state_of fst snd after_safety safetyState].
  split.
  - rewrite local_action_log. unfold unsafe.
    destruct (emergencyStop (evaluated hw)), (doorClosed (evaluated hw)),
      (overloadDetected (evaluated hw)), (temperatureOk (evaluated hw));
      simpl; split; intros H; try reflexivity; try discriminate H; try tauto;
      repeat (destruct H as [H | H]; try discriminate H).
  - intros Hin. apply local_action_log in Hin.
    unfold safety_log. rewrite Hin.
    eexists. rewrite !app_assoc. split; [reflexivity | ].
    unfold local_action, safety_message.
    split.
    + destruct (edge hw g), (publish_due hw g); simpl; intros H;
        repeat (destruct H as [H | H]; try discriminate H); exact H.
    + destruct (edge hw g), (publish_due hw g); reflexivity.
Qed.

Lemma local_action_iff_unsafe_witness :
  In local_action (trace_of (checkSafety (faulted_board 0) boot))
  /\ exists before,
       trace_of (checkSafety (faulted_board 0) boot) = before ++ [local_action]
       /\ ~ In local_action before
       /\ safety_publishes before
          = safety_publishes (trace_of (checkSafety (faulted_board 0) boot)).
Proof.
  assert (H : In local_action (trace_of (checkSafety (faulted_board 0) boot))).
  { apply (proj1 (local_action_iff_unsafe (faulted_board 0) boot)).
    right. left. vm_compute. reflexivity. }
  split; [exact H | ].
  exact (proj2 (local_action_iff_unsafe (faulted_board 0) boot) H).
Defined.

Lemma safety_cycles_cons (hw : Board) (rest : list Board) (g : Globals) :
  safety_cycles (hw :: rest) g
  = (fst (safety_cycles rest (after_safety hw g)),
     safety_log hw g :: snd (safety_cycles rest (after_safety hw g))).
Proof.
  cbn [safety_cycles]. rewrite checkSafety_eq. cbn [state_of trace_of fst snd].
  destruct (safety_cycles rest (after_safety hw g)); reflexivity.
Qed.

(** X6. After [lastSafetyPublish] is stamped, however many safety cycles
    follow within 1000 ms of the stamp, none of them publishes as long as the
    e-stop input keeps the level that gives the stored emergency_stop, and
    the stamp stays as it is; door, overload and temperature changes in
    between stay unreported. *)
Theorem quiet_until_heartbeat (hws : list Board) (g : Globals) (stamp : Z) :
  lastSafetyPublish g = Word.wrap stamp ->
  Forall (fun hw => lnot (pin_level hw EMERGENCY_STOP_PIN) = emergencyStop (safetyState g)
                    /\ 0 <= clock hw AtHeartbeatTest - stamp <= 1000) hws ->
  Forall (fun tr => safety_publishes tr = []) (snd (safety_cycles hws g))
  /\ lastSafetyPublish (fst (safety_cycles hws g)) = lastSafetyPublish g.
Proof.
  intros Hstamp Hall. revert g Hstamp Hall.
  induction hws as [ | hw rest IH]; intros g Hstamp Hall.
  - split; [constructor | reflexivity].
  - inversion Hall as [ | ? ? [Hsame Hd] Hrest]; subst.
    rewrite safety_cycles_cons. cbn [fst snd].
    assert (Hquiet : publish_due hw g = false).
    { unfold publish_due, edge. rewrite Hsame, Bool.eqb_reflx.
      rewrite (heartbeat_elapsed hw g stamp Hstamp) by (rewrite modulus_value; lia).
      cbn [negb orb]. apply Z.ltb_ge. lia. }
    assert (Hkeep : lastSafetyPublish (after_safety hw g) = lastSafetyPublish g).
    { cbn [after_safety lastSafetyPublish]. now rewrite Hquiet. }
    destruct (IH (after_safety hw g)) as [IHlogs IHstamp].
    + now rewrite Hkeep.
    + cbn [after_safety safetyState evaluated fields_of emergencyStop].
      rewrite Hsame.
      eapply Forall_impl; [ | exact Hrest]. intros b [Hb1 Hb2].
      split; [exact Hb1 | exact Hb2].
    + split.
      * constructor; [ | exact IHlogs].
        rewrite safety_publishes_log, Hquiet. reflexivity.
      * now rewrite IHstamp.
Qed.

(** Three cycles after the stamp of 1050 ms, each with door, current and
    temperature at fault. *)
Lemma quiet_until_heartbeat_witness :
  let g := put_lastSafetyPublish (Word.wrap 1050) boot in
  let hws := [faulted_board 1100; nominal_board 1150; faulted_board 2050] in
  lastSafetyPublish g = Word.wrap 1050
  /\ Forall (fun hw => lnot (pin_level hw EMERGENCY_STOP_PIN) = emergencyStop (safetyState g)
                       /\ 0 <= clock hw AtHeartbeatTest - 1050 <= 1000) hws
  /\ Forall (fun tr => safety_publishes tr = []) (snd (safety_cycles hws g))
  /\ lastSafetyPublish (fst (safety_cycles hws g)) = lastSafetyPublish g.
Proof.
  intros g hws.
  assert (Hall : Forall (fun hw => lnot (pin_level hw EMERGENCY_STOP_PIN)
                                   = emergencyStop (safetyState g)
                                   /\ 0 <= clock hw AtHeartbeatTest - 1050 <= 1000) hws).
  { repeat constructor; cbn; discriminate. }
  split; [reflexivity | split; [exact Hall | ]].
  exact (quiet_until_heartbeat hws g 1050 eq_refl Hall).
Defined.

(** X7. Publishes on an e-stop edge are not throttled: in a sequence of
    safety cycles in each of which the e-stop input has changed level, every
    cycle publishes exactly one safety message, however close together the
    cycles are and whatever the stamp of the last publish. *)
Theorem every_edge_publishes (hws : list Board) (g : Globals) :
  toggling (emergencyStop (safetyState g)) hws ->
  Forall (fun tr => List.length (safety_publishes tr) = 1%nat) (snd (safety_cycles hws g)).
Proof.
  revert g. induction hws as [ | hw rest IH]; intros g Htog; [constructor | ].
  destruct Htog as [Hnow Hrest].
  rewrite safety_cycles_cons. cbn [snd].
  constructor.
  - rewrite safety_publishes_log. unfold publish_due, edge. rewrite Hnow.
    destruct (emergencyStop (safetyState g)); reflexivity.
  - apply IH. cbn [after_safety safetyState evaluated fields_of emergencyStop].
    rewrite Hnow. exact Hrest.
Qed.

(** The e-stop pressed, released and pressed again in successive
    milliseconds. *)
Lemma every_edge_publishes_witness :
  let hws := [pressed_board 100; nominal_board 101; pressed_board 102] in
  toggling (emergencyStop (safetyState boot)) hws
  /\ Forall (fun tr => List.length (safety_publishes tr) = 1%nat)
            (snd (safety_cycles hws boot)).
Proof.
  intros hws.
  assert (H : toggling (emergencyStop (safetyState boot)) hws) by (cbn; repeat split).
  split; [exact H | ].
  exact (every_edge_publishes hws boot H).
Defined.

(** ** The telemetry cycle *)

(** X8. A telemetry cycle never touches the globals (the safety state and
    the three stamps stay as they were), publishes exactly one message, on
    the data topic, nothing on the safety topic, and takes no local safety
    action, for every board: failed inertial read or not. *)
Theorem telemetry_is_isolated (hw : Board) (g : Globals) :
  state_of (readSensors hw g) = g
  /\ List.length (data_publishes (trace_of (readSensors hw g))) = 1%nat
  /\ safety_publishes (trace_of (readSensors hw g)) = []
  /\ ~ In local_action (trace_of (readSensors hw g))
  /\ safety_ran (trace_of (readSensors hw g)) = false.
Proof.
  rewrite readSensors_eq. cbn [state_of trace_of fst snd].
  split; [reflexivity | ].
  split; [now rewrite data_publishes_log | ].
  unfold sensor_log, sensor_message, local_action.
  destruct (vibration_of hw) as [[x y] z].
  split; [reflexivity | split; [ | reflexivity]].
  simpl. intros H. repeat (destruct H as [H | H]; try discriminate H). exact H.
Qed.

(** ** Reconnecting *)

Lemma delay_total_app (a b : list Event) :
  delay_total (a ++ b) = delay_total a + delay_total b.
Proof.
  induction a as [ | e a IH]; [reflexivity | ].
  cbn [app delay_total fold_right]. fold (delay_total (a ++ b)). fold (delay_total a).
  rewrite IH. destruct e; lia.
Qed.

Lemma reconnectMQTT_cons (a : Attempt) (rest : list Attempt) (g : Globals) :
  trace_of (reconnectMQTT (a :: rest) g)
  = attempt_log a ++ trace_of (reconnectMQTT rest g).
Proof.
  cbn [reconnectMQTT].
  destruct a as [ | rc];
    cbv beta iota zeta delta [bind emit serial_print serial_println delay trace_of snd attempt_log];
    rewrite (reconnectMQTT_eq rest); reflexivity.
Qed.

Lemma reconnect_delay_total (attempts : list Attempt) (g : Globals) :
  delay_total (trace_of (reconnectMQTT attempts g)) = 5000 * refusals attempts.
Proof.
  induction attempts as [ | a rest IH]; [reflexivity | ].
  rewrite reconnectMQTT_cons, delay_total_app, IH.
  cbn [refusals fold_right]. fold (refusals rest).
  destruct a as [ | rc]; unfold attempt_log, delay_total; cbn [fold_right]; lia.
Qed.

(** X9. [reconnectMQTT] leaves the globals untouched, calls [connect] once
    per attempt, waits 5000 ms after every refused one and not at all after
    an accepted one, and while it runs no input is sampled and nothing is
    published. *)
Theorem reconnect_only_waits (attempts : list Attempt) (g : Globals) :
  state_of (reconnectMQTT attempts g) = g
  /\ delay_total (trace_of (reconnectMQTT attempts g)) = 5000 * refusals attempts
  /\ List.length (filter is_connect (trace_of (reconnectMQTT attempts g)))
     = List.length attempts
  /\ upkeep_only (trace_of (reconnectMQTT attempts g)).
Proof.
  split; [now rewrite reconnectMQTT_eq | ].
  split; [ | split; [ | apply reconnectMQTT_upkeep]].
  - apply reconnect_delay_total.
  - induction attempts as [ | a rest IH]; [reflexivity | ].
    rewrite reconnectMQTT_cons, filter_app, length_app, IH.
    destruct a; reflexivity.
Qed.

Lemma cadence_logs_no_delay (it : Iteration) (g : Globals) :
  delay_total (safety_part it g ++ sensor_part it g) = 0.
Proof.
  rewrite delay_total_app. unfold safety_part, sensor_part. cbv zeta.
  assert (Hs : forall hw s, delay_total (safety_log hw s) = 0).
  { intros hw s. unfold safety_log, safety_message, local_action.
    destruct (edge hw s), (publish_due hw s), (unsafe (evaluated hw)); reflexivity. }
  assert (Ht : forall hw, delay_total (sensor_log hw) = 0).
  { intros hw. unfold sensor_log, sensor_message.
    destruct (vibration_of hw) as [[x y] z]. reflexivity. }
  destruct (safety_due _ g), (sensor_due _ g); rewrite ?Hs, ?Ht; reflexivity.
Qed.

(** X10. An iteration that finds the link down does all its waiting (5000 ms
    per refused attempt) before it reads the clock at line 102: until then
    no safety input is sampled and nothing is published, and what follows
    the clock read contains no wait. *)
Theorem reconnect_precedes_dispatch (it : Iteration) (g : Globals) (attempts : list Attempt) :
  link it = LinkDown attempts ->
  exists g' before after,
    loop it g = Some (tt, g', before ++ Millis (Word.wrap (now it)) :: after)
    /\ delay_total before = 5000 * refusals attempts
    /\ upkeep_only before
    /\ delay_total after = 0
    /\ safety_ran after = safety_due (Word.wrap (now it)) g.
Proof.
  intros Hlink.
  assert (Hnot : link it <> LinkLost) by (rewrite Hlink; discriminate).
  eexists _, _, _. split; [apply (loop_eq it g Hnot) | ].
  rewrite Hlink. cbn [attempts_of].
  split; [ | split; [apply link_log_upkeep | split; [apply cadence_logs_no_delay | ]]].
  - unfold link_log, maintain. rewrite !trace_of_bind, !delay_total_app.
    rewrite reconnect_delay_total. cbn. lia.
  - destruct (loop_ran it g) as [Hs _].
    destruct (upkeep_no_cadence _ (link_log_upkeep (attempts_of (link it)))) as [Hl _].
    unfold safety_ran in *. rewrite existsb_app in Hs. rewrite Hl in Hs.
    cbn [existsb is_digital_read orb] in Hs. exact Hs.
Qed.

Lemma reconnect_precedes_dispatch_witness :
  let it := mkIteration (LinkDown [Refused (-2); Refused (-4); Accepted]) 10100
              (nominal_board 10100) (nominal_board 10100) in
  link it = LinkDown [Refused (-2); Refused (-4); Accepted]
  /\ exists g' before after,
       loop it boot = Some (tt, g', before ++ Millis (Word.wrap (now it)) :: after)
       /\ delay_total before = 5000 * refusals [Refused (-2); Refused (-4); Accepted]
       /\ upkeep_only before
       /\ delay_total after = 0
       /\ safety_ran after = safety_due (Word.wrap (now it)) boot.
Proof.
  intros it.
  split; [reflexivity | ].
  exact (reconnect_precedes_dispatch it boot [Refused (-2); Refused (-4); Accepted] eq_refl).
Defined.

(** ** The scheduler *)

Lemma after_dispatch_stamps (it : Iteration) (g : Globals) :
  (safety_due (Word.wrap (now it)) g = true ->
   lastSafetyTime (after_dispatch it g) = Word.wrap (now it))
  /\ (sensor_due (Word.wrap (now it)) g = true ->
      lastSensorTime (after_dispatch it g) = Word.wrap (now it)).
Proof.
  unfold after_dispatch, after_safety_tick. cbv zeta.
  destruct (safety_due (Word.wrap (now it)) g), (sensor_due (Word.wrap (now it)) g);
    split; intros H; try discriminate H; reflexivity.
Qed.

(** X11. Ticks that were missed are dropped, not made up: once a cadence
    body has run in an iteration, however overdue it was, it does not run
    again in the next iteration unless a full period (50 ms for safety,
    100 ms for sensors) has passed between the two clock reads. *)
Theorem missed_ticks_are_dropped (it next : Iteration) (g : Globals) (d : Z) :
  link it <> LinkLost ->
  link next <> LinkLost ->
  now next = now it + d ->
  0 <= d ->
  exists g' tr g'' tr',
    loop it g = Some (tt, g', tr)
    /\ loop next g' = Some (tt, g'', tr')
    /\ (safety_ran tr = true -> d < SAFETY_INTERVAL -> safety_ran tr' = false)
    /\ (sensor_ran tr = true -> d < SENSOR_INTERVAL -> sensor_ran tr' = false).
Proof.
  intros Hlink Hnext Hnow Hd.
  eexists _, _, _, _.
  split; [apply (loop_eq it g Hlink) | ].
  split; [apply (loop_eq next _ Hnext) | ].
  destruct (loop_ran it g) as [Hs Ht].
  destruct (loop_ran next (after_dispatch it g)) as [Hs' Ht'].
  destruct (after_dispatch_stamps it g) as [Hstamp_s Hstamp_t].
  rewrite Hs, Ht, Hs', Ht'.
  unfold SAFETY_INTERVAL, SENSOR_INTERVAL.
  split; intros Hran Hshort.
  - unfold safety_due at 1. rewrite (Hstamp_s Hran), Hnow.
    rewrite usub_elapsed by (rewrite modulus_value; lia).
    apply Z.leb_gt. unfold SAFETY_INTERVAL. lia.
  - unfold sensor_due at 1. rewrite (Hstamp_t Hran), Hnow.
    rewrite usub_elapsed by (rewrite modulus_value; lia).
    apply Z.leb_gt. unfold SENSOR_INTERVAL. lia.
Qed.

(** Ten seconds without a tick, then two iterations 5 ms apart. *)
Lemma missed_ticks_are_dropped_witness :
  let it := quiet_iteration 10000 in
  let next := quiet_iteration 10005 in
  link it <> LinkLost /\ link next <> LinkLost /\ now next = now it + 5 /\ 0 <= 5
  /\ exists g' tr g'' tr',
       loop it boot = Some (tt, g', tr)
       /\ loop next g' = Some (tt, g'', tr')
       /\ safety_ran tr = true /\ sensor_ran tr = true
       /\ safety_ran tr' = false /\ sensor_ran tr' = false.
Proof.
  intros it next.
  assert (H1 : link it <> LinkLost) by discriminate.
  assert (H2 : link next <> LinkLost) by discriminate.
  assert (H3 : now next = now it + 5) by reflexivity.
  assert (H4 : 0 <= 5) by lia.
  split; [exact H1 | split; [exact H2 | split; [exact H3 | split; [exact H4 | ]]]].
  destruct (missed_ticks_are_dropped it next boot 5 H1 H2 H3 H4)
    as (g' & tr & g'' & tr' & Hl & Hl' & Hs & Ht).
  exists g', tr, g'', tr'.
  assert (Hrs : safety_ran tr = true).
  { cbv in Hl. injection Hl as _ Htr. subst tr. vm_compute. reflexivity. }
  assert (Hrt : sensor_ran tr = true).
  { cbv in Hl. injection Hl as _ Htr. subst tr. vm_compute. reflexivity. }
  split; [exact Hl | split; [exact Hl' | split; [exact Hrs | split; [exact Hrt | ]]]].
  split; [apply (Hs Hrs) | apply (Ht Hrt)]; unfold SAFETY_INTERVAL, SENSOR_INTERVAL; lia.
Defined.

(** ** Start-up *)

Lemma boot_delay_total_app (a b : list BootEvent) :
  boot_delay_total (a ++ b) = boot_delay_total a + boot_delay_total b.
Proof.
  induction a as [ | e a IH]; [reflexivity | ].
  cbn [app boot_delay_total fold_right].
  fold (boot_delay_total (a ++ b)). fold (boot_delay_total a).
  rewrite IH. destruct e; lia.
Qed.

Lemma wifi_wait_facts (polls : nat) :
  boot_delay_total (wifi_wait polls) = 500 * Z.of_nat polls
  /\ List.length (filter is_dot (wifi_wait polls)) = polls
  /\ filter is_wifi_begin (wifi_wait polls) = []
  /\ filter is_pin_mode (wifi_wait polls) = []
  /\ filter (fun e => negb (is_mpu_line e)) (wifi_wait polls) = wifi_wait polls.
Proof.
  induction polls as [ | n (IH1 & IH2 & IH3 & IH4 & IH5)].
  - repeat split; reflexivity.
  - cbn [wifi_wait]. repeat split.
    + unfold boot_delay_total in *. cbn [fold_right]. rewrite IH1. lia.
    + cbn [filter is_dot]. cbn. rewrite IH2. reflexivity.
    + cbn. exact IH3.
    + cbn. exact IH4.
    + cbn. rewrite IH5. reflexivity.
Qed.

(** X12. [setupWiFi] starts the association once and then polls: it prints
    one dot and waits 500 ms for every poll that does not report the
    connection, 10 + 500 n ms in all for n such polls. *)
Theorem wifi_wait_accounting (polls : nat) (address : string) :
  boot_delay_total (setupWiFi polls address) = 10 + 500 * Z.of_nat polls
  /\ List.length (filter is_dot (setupWiFi polls address)) = polls
  /\ filter is_wifi_begin (setupWiFi polls address) = [WifiBegin ssid password].
Proof.
  destruct (wifi_wait_facts polls) as (H1 & H2 & H3 & _).
  unfold setupWiFi.
  set (before := [BootDelay 10; BootPrint "Connecting to WiFi: "; BootPrintln ssid;
                  WifiBegin ssid password]).
  set (after := [BootPrintln (nl ++ "WiFi connected")%string; BootPrint "IP address: ";
                 WifiLocalIP address; BootPrintln address]).
  rewrite !boot_delay_total_app, !filter_app, !length_app, H1, H2, H3.
  change (boot_delay_total before) with 10.
  change (boot_delay_total after) with 0.
  change (filter is_dot before) with (@nil BootEvent).
  change (filter is_dot after) with (@nil BootEvent).
  change (filter is_wifi_begin before) with [WifiBegin ssid password].
  change (filter is_wifi_begin after) with (@nil BootEvent).
  split; [lia | split; [cbn [List.length]; lia | reflexivity]].
Qed.

(** X13. [setup] returns whenever the WiFi connects, also when the MPU6050
    is not found: apart from the lines about the MPU itself its log is the
    one of a start-up that finds it. Both safety inputs are configured with
    pull-ups and the three analog inputs as inputs, all before the WiFi
    association is started, and the waiting is that of the WiFi loop. *)
Theorem setup_despite_missing_mpu (b : BootBoard) (polls : nat) :
  wifi_polls b = Some polls ->
  exists log with_mpu,
    setup b = Some log
    /\ setup (mkBootBoard true (wifi_polls b) (local_ip b)) = Some with_mpu
    /\ filter (fun e => negb (is_mpu_line e)) log
       = filter (fun e => negb (is_mpu_line e)) with_mpu
    /\ filter is_pin_mode log
       = [PinMode EMERGENCY_STOP_PIN INPUT_PULLUP; PinMode DOOR_SENSOR_PIN INPUT_PULLUP;
          PinMode CURRENT_SENSOR_PIN_1 INPUT; PinMode CURRENT_SENSOR_PIN_2 INPUT;
          PinMode TEMP_SENSOR_PIN_1 INPUT]
    /\ (exists before after,
          log = before ++ WifiBegin ssid password :: after
          /\ filter is_pin_mode before = filter is_pin_mode log)
    /\ boot_delay_total log = 10 + 500 * Z.of_nat polls.
Proof.
  intros Hpolls.
  destruct (wifi_wait_facts polls) as (Hdelay & _ & _ & Hpins & Hmpu).
  unfold setup. cbn [wifi_polls mpu_found local_ip]. rewrite Hpolls.
  eexists _, _. split; [reflexivity | split; [reflexivity | ]].
  unfold setupWiFi, setupMQTT.
  split; [ | split; [ | split]].
  - destruct (mpu_found b); [reflexivity | ].
    rewrite !filter_app. reflexivity.
  - rewrite !filter_app, Hpins. destruct (mpu_found b); reflexivity.
  - exists ([SerialBegin 115200; BootPrintln (nl ++ "=== MODAX Field Layer ESP32 ===")%string;
             WireBegin; MpuBegin (mpu_found b)]
            ++ (if mpu_found b
                then [BootPrintln "MPU6050 initialized";
                      MpuConfigure AccelerometerRange8G;
                      MpuConfigure GyroRange500Deg;
                      MpuConfigure FilterBandwidth21Hz]
                else [BootPrintln "Failed to find MPU6050 chip"])
            ++ [PinMode EMERGENCY_STOP_PIN INPUT_PULLUP;
                PinMode DOOR_SENSOR_PIN INPUT_PULLUP;
                PinMode CURRENT_SENSOR_PIN_1 INPUT;
                PinMode CURRENT_SENSOR_PIN_2 INPUT;
                PinMode TEMP_SENSOR_PIN_1 INPUT]
            ++ [BootDelay 10; BootPrint "Connecting to WiFi: "; BootPrintln ssid]).
    eexists. split.
    + destruct (mpu_found b); cbn [app]; reflexivity.
    + rewrite !filter_app, Hpins. destruct (mpu_found b); reflexivity.
  - rewrite !boot_delay_total_app, Hdelay.
    destruct (mpu_found b); cbn [boot_delay_total fold_right]; lia.
Qed.

Lemma setup_despite_missing_mpu_witness :
  let b := mkBootBoard false (Some 3%nat) "192.168.1.57" in
  wifi_polls b = Some 3%nat
  /\ exists log with_mpu,
       setup b = Some log
       /\ setup (mkBootBoard true (wifi_polls b) (local_ip b)) = Some with_mpu
       /\ filter (fun e => negb (is_mpu_line e)) log
          = filter (fun e => negb (is_mpu_line e)) with_mpu
       /\ filter is_pin_mode log
          = [PinMode EMERGENCY_STOP_PIN INPUT_PULLUP; PinMode DOOR_SENSOR_PIN INPUT_PULLUP;
             PinMode CURRENT_SENSOR_PIN_1 INPUT; PinMode CURRENT_SENSOR_PIN_2 INPUT;
             PinMode TEMP_SENSOR_PIN_1 INPUT]
       /\ (exists before after,
             log = before ++ WifiBegin ssid password :: after
             /\ filter is_pin_mode before = filter is_pin_mode log)
       /\ boot_delay_total log = 10 + 500 * Z.of_nat 3.
Proof.
  intros b.
  split; [reflexivity | ].
  exact (setup_despite_missing_mpu b 3 eq_refl).
Defined.

Lemma after_dispatch_lastSafetyTime (it : Iteration) (g : Globals) :
  lastSafetyTime (after_dispatch it g)
  = if safety_due (Word.wrap (now it)) g then Word.wrap (now it) else lastSafetyTime g.
Proof.
  unfold after_dispatch, after_safety_tick. cbv zeta.
  destruct (safety_due (Word.wrap (now it)) g), (sensor_due (Word.wrap (now it)) g);
    reflexivity.
Qed.

Lemma after_dispatch_lastSensorTime (it : Iteration) (g : Globals) :
  lastSensorTime (after_dispatch it g)
  = if sensor_due (Word.wrap (now it)) g then Word.wrap (now it) else lastSensorTime g.
Proof.
  unfold after_dispatch, after_safety_tick. cbv zeta.
  destruct (safety_due (Word.wrap (now it)) g), (sensor_due (Word.wrap (now it)) g);
    reflexivity.
Qed.

Lemma usub_plain (t last : Z) :
  0 <= last <= t -> t < 2 ^ 32 -> Word.usub (Word.wrap t) last = t - last.
Proof.
  intros Hlast Ht. unfold Word.usub, Word.wrap. rewrite modulus_value.
  rewrite (Z.mod_small t) by lia. apply Z.mod_small. lia.
Qed.

Lemma loop_returns (it : Iteration) (g : Globals) (r : unit * Globals * list Event) :
  loop it g = Some r -> link it <> LinkLost.
Proof. unfold loop. destruct (link it); [discriminate | discriminate | discriminate]. Qed.

Lemma safety_keeps_pace (its : list Iteration) :
  forall (g : Globals) (t0 : Z) (S T : nat),
    0 <= lastSafetyTime g <= t0 ->
    0 <= lastSensorTime g <= t0 ->
    (T <= S)%nat ->
    (lastSensorTime g < lastSafetyTime g -> (T + 1 <= S)%nat) ->
    steady_clock t0 its ->
    forall g' logs,
      run its g = Some (g', logs) ->
      (T + List.length (filter sensor_ran logs) <= S + List.length (filter safety_ran logs))%nat.
Proof.
  induction its as [ | it rest IH]; intros g t0 S T Hs Ht Hcount Hlead Hclock g' logs Hrun.
  - cbn in Hrun. injection Hrun as _ Hlogs. subst logs. cbn. lia.
  - cbn [run] in Hrun. destruct Hclock as [Hnow Hrest].
    destruct (loop it g) as [[[u g1] tr] | ] eqn:Hloop; [ | discriminate Hrun].
    destruct (run rest g1) as [[g2 logs'] | ] eqn:Hrun'; [ | discriminate Hrun].
    injection Hrun as _ Hlogs. subst logs.
    pose proof (loop_returns it g _ Hloop) as Hlink.
    rewrite (loop_eq it g Hlink) in Hloop. injection Hloop as Hg1 Htr. subst g1 tr.
    destruct (loop_ran it g) as [Hrs Hrt].
    assert (Hwrap : Word.wrap (now it) = now it).
    { unfold Word.wrap. rewrite modulus_value. apply Z.mod_small. lia. }
    pose proof (after_dispatch_lastSafetyTime it g) as Hls.
    pose proof (after_dispatch_lastSensorTime it g) as Hlt.
    unfold safety_due in Hrs, Hls. unfold sensor_due in Hrt, Hlt.
    rewrite usub_plain in Hrs, Hls, Hrt, Hlt by lia.
    rewrite Hwrap in Hls, Hlt.
    unfold SAFETY_INTERVAL in *. unfold SENSOR_INTERVAL in *.
    cbn [filter]. rewrite Hrs, Hrt.
    destruct (50 <=? now it - lastSafetyTime g) eqn:Es;
      destruct (100 <=? now it - lastSensorTime g) eqn:Et;
      [apply Z.leb_le in Es | apply Z.leb_le in Es | apply Z.leb_gt in Es | apply Z.leb_gt in Es];
      [apply Z.leb_le in Et | apply Z.leb_gt in Et | apply Z.leb_le in Et | apply Z.leb_gt in Et];
      cbn [List.length].
    + specialize (IH (after_dispatch it g) (now it) (Datatypes.S S) (Datatypes.S T)).
      rewrite Hls, Hlt in IH.
      assert (H := IH ltac:(lia) ltac:(lia) ltac:(lia) ltac:(lia) Hrest g2 logs' Hrun'). lia.
    + specialize (IH (after_dispatch it g) (now it) (Datatypes.S S) T).
      rewrite Hls, Hlt in IH.
      assert (H := IH ltac:(lia) ltac:(lia) ltac:(lia) ltac:(lia) Hrest g2 logs' Hrun'). lia.
    + specialize (IH (after_dispatch it g) (now it) S (Datatypes.S T)).
      rewrite Hls, Hlt in IH.
      assert (H := IH ltac:(lia) ltac:(lia) ltac:(lia) ltac:(lia) Hrest g2 logs' Hrun'). lia.
    + specialize (IH (after_dispatch it g) (now it) S T).
      rewrite Hls, Hlt in IH.
      assert (H := IH ltac:(lia) ltac:(lia) ltac:(lia) ltac:(lia) Hrest g2 logs' Hrun'). lia.
Qed.

(** X14. Telemetry never outpaces safety: in every execution from boot whose
    iteration clocks do not run backwards and have not yet wrapped, at least
    as many iterations ran [checkSafety] as ran [readSensors], whatever the
    spacing of the iterations and however long reconnects took. *)
Theorem telemetry_never_outpaces_safety (its : list Iteration) (g' : Globals)
    (logs : list (list Event)) :
  steady_clock 0 its ->
  run its boot = Some (g', logs) ->
  (List.length (filter sensor_ran logs) <= List.length (filter safety_ran logs))%nat.
Proof.
  intros Hclock Hrun.
  apply (safety_keeps_pace its boot 0 0%nat 0%nat) with (g' := g');
    cbn [boot lastSafetyTime lastSensorTime]; try lia; assumption.
Qed.

(** Both cadences at 100 ms, safety alone at 150 ms, nothing at 160 ms,
    after a reconnect both again at 5300 ms. *)
Lemma telemetry_never_outpaces_safety_witness :
  let its := [quiet_iteration 100; quiet_iteration 150; quiet_iteration 160;
              mkIteration (LinkDown [Refused (-2); Accepted]) 5300
                (nominal_board 5300) (nominal_board 5301)] in
  steady_clock 0 its
  /\ exists g' logs,
       run its boot = Some (g', logs)
       /\ (List.length (filter sensor_ran logs) <= List.length (filter safety_ran logs))%nat.
Proof.
  intros its.
  assert (Hclock : steady_clock 0 its) by (cbn; lia).
  split; [exact Hclock | ].
  destruct (run its boot) as [[g' logs] | ] eqn:Hrun; [ | vm_compute in Hrun; discriminate Hrun].
  exists g', logs. split; [reflexivity | ].
  exact (telemetry_never_outpaces_safety its g' logs Hclock Hrun).
Defined.

(** ** The vibration magnitude *)

Lemma round_aux_sign (prec emax : Z) (s : bool) (m e : Z) (l : location) :
  match binary_round_aux prec emax s m e l with
  | S754_nan => True
  | S754_zero s' | S754_infinity s' | S754_finite s' _ _ => s' = s
  end.
Proof.
  unfold binary_round_aux.
  destruct (shr_fexp prec emax m e l) as [mrs e'].
  destruct (shr_fexp prec emax _ e' loc_Exact) as [mrs' e''].
  destruct (shr_m mrs'); [reflexivity | | exact I].
  destruct (Z.leb e'' (Z.sub emax prec)); reflexivity.
Qed.

Lemma round_sign (prec emax : Z) (s : bool) (m : positive) (e : Z) :
  match binary_round prec emax s m e with
  | S754_nan => True
  | S754_zero s' | S754_infinity s' | S754_finite s' _ _ => s' = s
  end.
Proof.
  unfold binary_round. destruct (shl_align m e _) as [mz ez]. apply round_aux_sign.
Qed.

Lemma square_sign_clear (x : float) : sign_clear (fmul x x).
Proof.
  unfold sign_clear, fmul.
  destruct x as [s | s | | s m e]; simpl.
  - destruct s; reflexivity.
  - destruct s; reflexivity.
  - exact I.
  - pose proof (round_aux_sign prec32 emax32 (xorb s s) (Zpos (Pos.mul m m)) (Z.add e e)
                  loc_Exact) as H.
    destruct (binary_round_aux prec32 emax32 (xorb s s) _ _ _); try exact I;
      rewrite H; destruct s; reflexivity.
Qed.

Lemma sum_sign_clear (a b : float) : sign_clear a -> sign_clear b -> sign_clear (fadd a b).
Proof.
  unfold sign_clear, fadd.
  destruct a as [sa | sa | | sa ma ea], b as [sb | sb | | sb mb eb];
    intros Ha Hb; subst; simpl; try exact I; try reflexivity.
  match goal with
  | |- context [binary_round ?p ?x ?s ?m ?e] =>
      pose proof (round_sign p x s m e) as H;
      destruct (binary_round p x s m e); try exact I; exact H
  end.
Qed.

Lemma sqrt_sign_clear (a : float) : sign_clear a -> sign_clear (fsqrt a).
Proof.
  unfold sign_clear, fsqrt.
  destruct a as [s | s | | s m e]; intros Ha; subst; simpl; try exact I; try reflexivity.
  destruct (SFsqrt_core_binary prec32 emax32 (Zpos m) e) as [[mz ez] lz].
  pose proof (round_aux_sign prec32 emax32 false mz ez lz) as H.
  destruct (binary_round_aux prec32 emax32 false mz ez lz); try exact I; exact H.
Qed.

Lemma square_of_opposite (x : float) : fmul (SFopp x) (SFopp x) = fmul x x.
Proof. destruct x as [[] | [] | | [] m e]; reflexivity. Qed.

(** X15. The magnitude [publishSensorData] derives is never negative, for
    all three components whatsoever (infinities and NaN included): it is NaN
    or has a clear sign bit. And it does not depend on the sign of any
    component. *)
Theorem magnitude_sign (vibX vibY vibZ : float) :
  sign_clear (magnitude vibX vibY vibZ)
  /\ magnitude (SFopp vibX) vibY vibZ = magnitude vibX vibY vibZ
  /\ magnitude vibX (SFopp vibY) vibZ = magnitude vibX vibY vibZ
  /\ magnitude vibX vibY (SFopp vibZ) = magnitude vibX vibY vibZ.
Proof.
  unfold magnitude. rewrite !square_of_opposite.
  split; [ | repeat split].
  apply sqrt_sign_clear, sum_sign_clear; [apply sum_sign_clear | ]; apply square_sign_clear.
Qed.

(** ** The safe band *)

(** X16. With twelve-bit codes on the three analog inputs, a safety cycle
    takes no local safety action exactly when the e-stop input reads high,
    the door input reads low, both current codes lie in 807..3288 and the
    temperature code is at most 2519. *)
Theorem safe_band (hw : Board) (g : Globals) :
  0 <= adc_code hw CURRENT_SENSOR_PIN_1 <= 4095 ->
  0 <= adc_code hw CURRENT_SENSOR_PIN_2 <= 4095 ->
  0 <= adc_code hw TEMP_SENSOR_PIN_1 <= 4095 ->
  (~ In local_action (trace_of (checkSafety hw g))
   <-> (pin_level hw EMERGENCY_STOP_PIN <> LOW
        /\ pin_level hw DOOR_SENSOR_PIN = LOW
        /\ 807 <= adc_code hw CURRENT_SENSOR_PIN_1 <= 3288
        /\ 807 <= adc_code hw CURRENT_SENSOR_PIN_2 <= 3288
        /\ adc_code hw TEMP_SENSOR_PIN_1 <= 2519)).
Proof.
  intros H1 H2 H3.
  rewrite checkSafety_eq. cbn [trace_of snd].
  rewrite local_action_log.
  unfold unsafe, evaluated, fields_of.
  cbn [emergencyStop doorClosed overloadDetected temperatureOk].
  rewrite !current_of_code_eq, temperature_of_code_eq.
  destruct (conversion_check_at _ H1) as (E1 & _).
  destruct (conversion_check_at _ H2) as (E2 & _).
  destruct (conversion_check_at _ H3) as (_ & E3 & _).
  rewrite E1, E2, E3. unfold lnot, LOW.
  destruct (Z.eqb_spec (pin_level hw EMERGENCY_STOP_PIN) 0) as [Hs | Hs];
    destruct (Z.eqb_spec (pin_level hw DOOR_SENSOR_PIN) 0) as [Hd | Hd];
    destruct (Z.leb_spec (adc_code hw CURRENT_SENSOR_PIN_1) 806);
    destruct (Z.leb_spec 3289 (adc_code hw CURRENT_SENSOR_PIN_1));
    destruct (Z.leb_spec (adc_code hw CURRENT_SENSOR_PIN_2) 806);
    destruct (Z.leb_spec 3289 (adc_code hw CURRENT_SENSOR_PIN_2));
    destruct (Z.leb_spec (adc_code hw TEMP_SENSOR_PIN_1) 2519);
    cbn [negb orb];
    (split;
     [ intros Hx; try (exfalso; apply Hx; reflexivity); repeat split; (lia || congruence)
     | intros (Ha & Hb & Hc & Hc' & He) Hf; try discriminate Hf; try lia; congruence ]).
Qed.

Lemma safe_band_witness :
  let hw := nominal_board 0 in
  0 <= adc_code hw CURRENT_SENSOR_PIN_1 <= 4095
  /\ 0 <= adc_code hw CURRENT_SENSOR_PIN_2 <= 4095
  /\ 0 <= adc_code hw TEMP_SENSOR_PIN_1 <= 4095
  /\ ~ In local_action (trace_of (checkSafety hw boot)).
Proof.
  intros hw.
  assert (H1 : 0 <= adc_code hw CURRENT_SENSOR_PIN_1 <= 4095) by (cbn; lia).
  assert (H2 : 0 <= adc_code hw CURRENT_SENSOR_PIN_2 <= 4095) by (cbn; lia).
  assert (H3 : 0 <= adc_code hw TEMP_SENSOR_PIN_1 <= 4095) by (cbn; lia).
  split; [exact H1 | split; [exact H2 | split; [exact H3 | ]]].
  apply (proj2 (safe_band hw boot H1 H2 H3)).
  cbn. repeat split; (lia || discriminate).
Defined.
